(** * GateKeeper: the selection engine, the admission gate and the
      response-status interceptor, embedded from the Go sources.

    The development follows the packages of the repository:
    [config], [logger], [metrics], [loadbalancer], [middleware] and
    [gateway].  Go's [int] is a 64-bit two's-complement integer and is
    kept as a [Z] with the wrap-around written out.  The package-level
    state of the process (the wall clock, the calls made to package
    logger, the Prometheus collectors) is the record [World], passed
    explicitly; the objects of the program (the load balancer, the rate
    limiter, a response writer) are passed and returned next to it.
    Every method runs under its mutex in the source, so a method is one
    atomic step here. *)

From Stdlib Require Import ZArith Lia String Ascii DecimalString.
From stdpp Require Import base list strings gmap.

Open Scope Z_scope.

(** ** Go runtime: integers, panics, formatting *)

Definition int_bits : Z := 64.

(** Two's-complement wrap-around of Go's [int]. *)
Definition int_wrap (z : Z) : Z :=
  (z + 2 ^ (int_bits - 1)) `mod` 2 ^ int_bits - 2 ^ (int_bits - 1).

Definition int_add (a b : Z) : Z := int_wrap (a + b).

(** A Go computation either returns or panics. *)
Inductive Result (A : Type) : Type :=
| Ok (a : A)
| Panic (msg : string).
Arguments Ok {A} a.
Arguments Panic {A} msg.

Global Instance Result_ret : MRet Result := λ A a, Ok a.

Global Instance Result_bind : MBind Result := λ A B k m,
  match m with
  | Ok a => k a
  | Panic msg => Panic msg
  end.

(** [len(s)] *)
Definition len {A} (s : list A) : Z := Z.of_nat (length s).

(** [s[i]], with the bounds check of the runtime. *)
Definition index {A} (s : list A) (i : Z) : Result A :=
  if (0 <=? i) && (i <? len s)
  then match s !! Z.to_nat i with
       | Some x => Ok x
       | None => Panic "index out of range"
       end
  else Panic "index out of range".

(** [strconv.Itoa], also the [%d] verb of package fmt. *)
Definition Itoa (z : Z) : string := NilZero.string_of_int (Z.to_int z).


(** Arguments of a formatting call. *)
Inductive Value : Type :=
| VStr (s : string)
| VInt (z : Z)
| VBool (b : bool)
| VQuot (num den : Z).     (* the float64 quotient num / den *)



(** ** Package-level state *)

Inductive Level : Type := DebugLevel | InfoLevel | WarnLevel | ErrorLevel.

(** One call to package logger: the severity, the format and its
    arguments.  Rendering and level filtering belong to logrus. *)
Record LogCall : Type := mkLogCall {
  level : Level;
  format : string;
  args : list Value
}.

(** The Prometheus collectors of package metrics.  A counter vector maps
    its label values to a count; the histogram keeps the observed
    durations (nanoseconds, as [time.Duration]) per label values. *)
Record Collectors : Type := mkCollectors {
  requestsTotal : gmap (string * string * string) nat;
  requestDuration : gmap (string * string) (list Z);
  backendRequestsTotal : gmap (string * string) nat;
  backendUp : gmap string bool;
  rateLimitedRequests : nat
}.

Record World : Type := mkWorld {
  now : Z;                  (* time.Now(), in nanoseconds *)
  logged : list LogCall;    (* calls to package logger, oldest first *)
  collectors : Collectors
}.

Definition set_logged (f : list LogCall → list LogCall) (σ : World) : World :=
  mkWorld (now σ) (f (logged σ)) (collectors σ).

Definition set_collectors (f : Collectors → Collectors) (σ : World) : World :=
  mkWorld (now σ) (logged σ) (f (collectors σ)).

(** ** package config *)

Module config.

Record Backend : Type := mkBackend {
  Name : string;
  URL : string;
  Weight : Z;
  Health : string
}.

Record RateLimitConfig : Type := mkRateLimitConfig {
  RequestsPerMinute : Z;
  BurstSize : Z
}.

Record Config : Type := mkConfig {
  Backends : list Backend;
  RateLimit : RateLimitConfig
}.

End config.

(** ** package logger *)

Module logger.

Definition emit (l : Level) (format : string) (args : list Value)
    (σ : World) : World :=
  set_logged (λ calls, calls ++ [mkLogCall l format args]) σ.

Definition Debug := emit DebugLevel.
Definition Info := emit InfoLevel.
Definition Warn := emit WarnLevel.
Definition Error := emit ErrorLevel.

End logger.

(** ** math/rand *)

Module rand.

(** A generator is the sequence of raw values it is going to produce
    and the number of values already consumed. *)
Record Rand : Type := mkRand {
  raws : nat → Z;
  consumed : nat
}.

(** [Intn(n)] panics for [n <= 0] and otherwise returns a value of
    [[0, n)]. *)
Definition Intn (src : Rand) (n : Z) : Result (Z * Rand) :=
  if n <=? 0 then Panic "invalid argument to Intn"
  else Ok (raws src (consumed src) `mod` n,
           mkRand (raws src) (S (consumed src))).

End rand.

(** ** package loadbalancer *)

Module loadbalancer.

Record BackendStatus : Type := mkBackendStatus {
  Backend : config.Backend;
  Healthy : bool;
  Weight : Z
}.

Record LoadBalancer : Type := mkLoadBalancer {
  backends : list BackendStatus;
  currentIndex : Z;
  randomSource : rand.Rand;
  algorithm : string
}.

Definition set_backends (bs : list BackendStatus) (lb : LoadBalancer) :=
  mkLoadBalancer bs (currentIndex lb) (randomSource lb) (algorithm lb).

Definition set_currentIndex (i : Z) (lb : LoadBalancer) :=
  mkLoadBalancer (backends lb) i (randomSource lb) (algorithm lb).

Definition set_randomSource (src : rand.Rand) (lb : LoadBalancer) :=
  mkLoadBalancer (backends lb) (currentIndex lb) src (algorithm lb).

Definition set_algorithm (a : string) (lb : LoadBalancer) :=
  mkLoadBalancer (backends lb) (currentIndex lb) (randomSource lb) a.

Definition set_Healthy (h : bool) (b : BackendStatus) :=
  mkBackendStatus (Backend b) h (Weight b).

(** [New]: every configured backend starts healthy, with the weight of
    its descriptor.  The generator, seeded from the clock in the source,
    is an input. *)
Definition New (bs : list config.Backend) (seed : rand.Rand) (σ : World)
    : LoadBalancer * World :=
  (mkLoadBalancer
     ((λ backend, mkBackendStatus backend true (config.Weight backend)) <$> bs)
     0 seed "round_robin",
   logger.Info "LoadBalancer initialized with %d backends" [VInt (len bs)] σ).

Definition getHealthyBackendsLocked (lb : LoadBalancer) : list BackendStatus :=
  filter (λ backend, Healthy backend = true) (backends lb).


Definition roundRobin (lb : LoadBalancer) (healthyBackends : list BackendStatus)
    : Result (option config.Backend * LoadBalancer) :=
  if len healthyBackends =? 0 then Ok (None, lb)
  else
    backend ← index healthyBackends
                (currentIndex lb `rem` len healthyBackends);
    let lb1 := set_currentIndex (int_add (currentIndex lb) 1) lb in
    let lb2 := if 1000000 <=? currentIndex lb1
               then set_currentIndex 0 lb1 else lb1 in
    Ok (Some (Backend backend), lb2).

(** The first loop of [weightedRoundRobin]. *)
Definition totalWeight (healthyBackends : list BackendStatus) : Z :=
  foldl (λ total backend, int_add total (Weight backend)) 0 healthyBackends.

(** The second loop of [weightedRoundRobin], from the running sum
    [currentWeight]: the entry it returns at, or [None] when it runs off
    the end of the snapshot. *)
Fixpoint accumulate (randomWeight currentWeight : Z)
    (healthyBackends : list BackendStatus) : option BackendStatus :=
  match healthyBackends with
  | [] => None
  | backend :: rest =>
      let currentWeight := int_add currentWeight (Weight backend) in
      if randomWeight <? currentWeight then Some backend
      else accumulate randomWeight currentWeight rest
  end.

Definition weightedRoundRobin (lb : LoadBalancer)
    (healthyBackends : list BackendStatus)
    : Result (option config.Backend * LoadBalancer) :=
  if len healthyBackends =? 0 then Ok (None, lb)
  else if totalWeight healthyBackends =? 0 then roundRobin lb healthyBackends
  else
    '(randomWeight, src) ← rand.Intn (randomSource lb)
                             (totalWeight healthyBackends);
    let lb := set_randomSource src lb in
    match accumulate randomWeight 0 healthyBackends with
    | Some backend => Ok (Some (Backend backend), lb)
    | None =>
        first ← index healthyBackends 0;
        Ok (Some (Backend first), lb)
    end.

Definition randomBackend (lb : LoadBalancer)
    (healthyBackends : list BackendStatus)
    : Result (option config.Backend * LoadBalancer) :=
  if len healthyBackends =? 0 then Ok (None, lb)
  else
    '(i, src) ← rand.Intn (randomSource lb) (len healthyBackends);
    backend ← index healthyBackends i;
    Ok (Some (Backend backend), set_randomSource src lb).

Definition NextBackend (lb : LoadBalancer) (σ : World)
    : Result (option config.Backend * LoadBalancer * World) :=
  let healthyBackends := getHealthyBackendsLocked lb in
  if len healthyBackends =? 0
  then Ok (None, lb, logger.Warn "No healthy backends available" [] σ)
  else
    '(backend, lb) ←
      (if String.eqb (algorithm lb) "weighted_round_robin"
       then weightedRoundRobin lb healthyBackends
       else if String.eqb (algorithm lb) "random"
       then randomBackend lb healthyBackends
       else if String.eqb (algorithm lb) "least_connections"
       then roundRobin lb healthyBackends
       else roundRobin lb healthyBackends);
    Ok (backend, lb, σ).

(** The loop of [SetBackendHealth] over the registry: [Some] at the
    first entry whose name matches (the loop returns there), [None] when
    it falls off the end. *)
Fixpoint SetBackendHealth_loop (backendName : string) (healthy : bool)
    (bs : list BackendStatus) (σ : World)
    : option (list BackendStatus * World) :=
  match bs with
  | [] => None
  | backend :: rest =>
      if String.eqb (config.Name (Backend backend)) backendName
      then
        if negb (Bool.eqb (Healthy backend) healthy)
        then Some (set_Healthy healthy backend :: rest,
                   logger.Info "Backend %s health changed: %v -> %v"
                     [VStr backendName; VBool (Healthy backend); VBool healthy]
                     σ)
        else Some (backend :: rest, σ)
      else
        match SetBackendHealth_loop backendName healthy rest σ with
        | Some (rest', σ') => Some (backend :: rest', σ')
        | None => None
        end
  end.

Definition SetBackendHealth (backendName : string) (healthy : bool)
    (lb : LoadBalancer) (σ : World) : LoadBalancer * World :=
  match SetBackendHealth_loop backendName healthy (backends lb) σ with
  | Some (bs, σ') => (set_backends bs lb, σ')
  | None =>
      (lb, logger.Warn "Backend %s not found when updating health status"
             [VStr backendName] σ)
  end.

Definition validAlgorithms : gmap string bool :=
  {[ "round_robin" := true; "weighted_round_robin" := true;
     "random" := true; "least_connections" := true ]}.

Definition SetAlgorithm (algorithm : string) (lb : LoadBalancer) (σ : World)
    : LoadBalancer * World :=
  if negb (default false (validAlgorithms !! algorithm))
  then (set_algorithm "round_robin" lb,
        logger.Warn "Invalid load balancing algorithm: %s, using round_robin"
          [VStr algorithm] σ)
  else (set_algorithm algorithm lb,
        logger.Info "Load balancing algorithm set to: %s" [VStr algorithm] σ).

(** One element of the "backends" list of [GetStats]. *)
Record BackendStat : Type := mkBackendStat {
  stat_name : string;
  stat_url : string;
  stat_healthy : bool;
  stat_weight : Z
}.

(** The map [GetStats] returns, one field per key. *)
Record Stats : Type := mkStats {
  total_backends : Z;
  healthy_backends : Z;
  unhealthy_backends : Z;
  stats_algorithm : string;
  stats_backends : list BackendStat
}.

Definition GetStats (lb : LoadBalancer) : Stats :=
  let totalBackends := len (backends lb) in
  let healthyBackends := len (getHealthyBackendsLocked lb) in
  mkStats totalBackends healthyBackends (totalBackends - healthyBackends)
    (algorithm lb)
    ((λ backend,
        mkBackendStat (config.Name (Backend backend))
          (config.URL (Backend backend)) (Healthy backend) (Weight backend))
     <$> backends lb).

End loadbalancer.

(** ** net/http: the part of its contract the handlers rely on *)

Module http.

Definition StatusOK : Z := 200.
Definition StatusTooManyRequests : Z := 429.
Definition StatusServiceUnavailable : Z := 503.
Definition StatusInternalServerError : Z := 500.

Record URL : Type := mkURL {
  Path : string
}.

Record Request : Type := mkRequest {
  Method : string;
  RequestURL : URL;                 (* r.URL *)
  Header : gmap string string;      (* r.Header.Get *)
  RemoteAddr : string
}.

(** The interface [http.ResponseWriter]: [w.Header().Set(k, v)],
    [w.WriteHeader(code)] and [w.Write(data)]. *)
Class ResponseWriter (W : Type) : Type := {
  Header_Set : string → string → W → W;
  WriteHeader : Z → W → W;
  Write : string → W → W
}.

(** [http.Error]: two headers, the status, then the message and a
    newline. *)
Definition Error {W} `{ResponseWriter W} (w : W) (error : string) (code : Z)
    : W :=
  let w := Header_Set "Content-Type" "text/plain; charset=utf-8" w in
  let w := Header_Set "X-Content-Type-Options" "nosniff" w in
  let w := WriteHeader code w in
  Write (error +:+ String "010"%char EmptyString) w.

(** A handler writes to whatever response writer it is given and may
    change the package-level state. *)
Definition Handler : Type :=
  ∀ W : Type, ResponseWriter W → W → Request → World → W * World.

End http.

(** ** net/http/httptest: the recorder the tests read responses from *)

Module httptest.

(** What a client observes: the status is fixed by the first
    [WriteHeader], or to 200 by a [Write] that comes before any; the body
    is what was written; the header map is the one [Header()] hands out.
    Content sniffing into [Content-Type] is left out. *)
Record ResponseRecorder : Type := mkResponseRecorder {
  Code : Z;
  HeaderMap : gmap string string;
  Body : string;
  wroteHeader : bool
}.

Definition NewRecorder : ResponseRecorder :=
  mkResponseRecorder 200 ∅ EmptyString false.

Definition recorder_WriteHeader (code : Z) (rw : ResponseRecorder)
    : ResponseRecorder :=
  if wroteHeader rw then rw
  else mkResponseRecorder code (HeaderMap rw) (Body rw) true.

Definition recorder_Write (buf : string) (rw : ResponseRecorder)
    : ResponseRecorder :=
  let rw := recorder_WriteHeader 200 rw in
  mkResponseRecorder (Code rw) (HeaderMap rw) (Body rw +:+ buf) (wroteHeader rw).

Definition recorder_Header_Set (k v : string) (rw : ResponseRecorder)
    : ResponseRecorder :=
  mkResponseRecorder (Code rw) (<[k := v]> (HeaderMap rw)) (Body rw)
    (wroteHeader rw).

#[global] Instance recorder_ResponseWriter : http.ResponseWriter ResponseRecorder := {
  http.Header_Set := recorder_Header_Set;
  http.WriteHeader := recorder_WriteHeader;
  http.Write := recorder_Write
}.

End httptest.

(** ** package metrics *)

Module metrics.

Definition inc {K} `{Countable K} (k : K) (m : gmap K nat) : gmap K nat :=
  <[k := S (default 0%nat (m !! k))]> m.

Definition observe {K} `{Countable K} (k : K) (d : Z) (m : gmap K (list Z))
    : gmap K (list Z) :=
  <[k := default [] (m !! k) ++ [d]]> m.

Definition RecordRequest (method status backend : string) (duration : Z)
    (σ : World) : World :=
  set_collectors (λ c,
    mkCollectors (inc (method, status, backend) (requestsTotal c))
      (observe (method, backend) duration (requestDuration c))
      (backendRequestsTotal c) (backendUp c) (rateLimitedRequests c)) σ.

Definition RecordBackendRequest (backend status : string) (σ : World) : World :=
  set_collectors (λ c,
    mkCollectors (requestsTotal c) (requestDuration c)
      (inc (backend, status) (backendRequestsTotal c))
      (backendUp c) (rateLimitedRequests c)) σ.


Definition RecordRateLimit (σ : World) : World :=
  set_collectors (λ c,
    mkCollectors (requestsTotal c) (requestDuration c)
      (backendRequestsTotal c) (backendUp c) (S (rateLimitedRequests c))) σ.

(** [ResponseWriter] embeds an [http.ResponseWriter] and keeps a status
    code next to it. *)
Record ResponseWriter (W : Type) : Type := mkResponseWriter {
  embedded : W;
  statusCode : Z
}.
Arguments mkResponseWriter {W} embedded statusCode.
Arguments embedded {W} r.
Arguments statusCode {W} r.

Definition NewResponseWriter {W} (w : W) : ResponseWriter W :=
  mkResponseWriter w http.StatusOK.

Definition WriteHeader {W} `{http.ResponseWriter W} (code : Z)
    (rw : ResponseWriter W) : ResponseWriter W :=
  mkResponseWriter (http.WriteHeader code (embedded rw)) code.

Definition StatusCode {W} (rw : ResponseWriter W) : string :=
  Itoa (statusCode rw).

(** [Header] and [Write] are promoted from the embedded writer. *)
#[global] Instance wrapper_ResponseWriter {W} `{http.ResponseWriter W}
    : http.ResponseWriter (ResponseWriter W) := {
  http.Header_Set k v rw :=
    mkResponseWriter (http.Header_Set k v (embedded rw)) (statusCode rw);
  http.WriteHeader := WriteHeader;
  http.Write data rw :=
    mkResponseWriter (http.Write data (embedded rw)) (statusCode rw)
}.

End metrics.

(** ** golang.org/x/time/rate *)

Module rate.

(** One token, counted in the amount that a rate of one request per
    minute refills in one nanosecond: token amounts stay exact integers
    where the library computes in floating point. *)
Definition token : Z := 60 * 1000000000.

(** Modelled from the spec: the token bucket of [rate.Limiter], a
    dependency whose code is not part of the repository.  Tokens refill
    continuously at the configured rate up to the burst cap; the bucket
    starts full. *)
Record Limiter : Type := mkLimiter {
  perMinute : Z;     (* refill rate, in requests per minute *)
  burst : Z;         (* capacity, in tokens *)
  tokens : Z;        (* content, in [1 / token] of a token *)
  last : Z           (* time of the last update, in nanoseconds *)
}.

Definition NewLimiter (requestsPerMinute burstSize : Z) : Limiter :=
  mkLimiter requestsPerMinute burstSize (burstSize * token) 0.

(** The content of the bucket at time [t]. *)
Definition advance (lim : Limiter) (t : Z) : Z :=
  let elapsed := t - Z.min (last lim) t in
  Z.min (burst lim * token) (tokens lim + elapsed * perMinute lim).

(** Modelled from the spec: [Allow] attempts to consume one token; it
    succeeds iff at least one is available, and fails, with no token
    consumed, otherwise. *)
Definition Allow (lim : Limiter) (t : Z) : bool * Limiter :=
  let available := advance lim t in
  if token <=? available
  then (true, mkLimiter (perMinute lim) (burst lim) (available - token) t)
  else (false, lim).

End rate.

(** ** package middleware *)

Module middleware.

Definition Header_Get (r : http.Request) (k : string) : string :=
  default EmptyString (http.Header r !! k).

Definition getClientIP (r : http.Request) : string :=
  let xff := Header_Get r "X-Forwarded-For" in
  if negb (String.eqb xff EmptyString) then xff
  else
    let xri := Header_Get r "X-Real-IP" in
    if negb (String.eqb xri EmptyString) then xri
    else http.RemoteAddr r.

(** [MetricsMiddleware.Wrap(next)] *)
Definition MetricsMiddleware_Wrap (next : http.Handler) : http.Handler :=
  λ W HW w r σ,
    let start := now σ in
    let rw := metrics.NewResponseWriter w in
    let '(rw, σ) :=
      next (metrics.ResponseWriter W) metrics.wrapper_ResponseWriter rw r σ in
    if negb (String.eqb (http.Path (http.RequestURL r)) "/metrics")
    then
      let duration := now σ - start in
      (metrics.embedded rw,
       metrics.RecordRequest (http.Method r) (metrics.StatusCode rw)
         "gateway" duration σ)
    else (metrics.embedded rw, σ).

Record RateLimitMiddleware : Type := mkRateLimitMiddleware {
  limiter : rate.Limiter
}.

(** The rate in requests per second is only logged; it is kept as the
    quotient it is computed from. *)
Definition NewRateLimiter (requestsPerMinute burstSize : Z) (σ : World)
    : RateLimitMiddleware * World :=
  (mkRateLimitMiddleware (rate.NewLimiter requestsPerMinute burstSize),
   logger.Info "Rate limiter initialized: %.2f req/sec, burst: %d"
     [VQuot requestsPerMinute 60; VInt burstSize] σ).

(** The handler [m.Wrap(next)] returns, serving one request: the
    limiter it captured is threaded through. *)
Definition RateLimitMiddleware_Wrap (m : RateLimitMiddleware)
    (next : http.Handler) {W} `{http.ResponseWriter W} (w : W)
    (r : http.Request) (σ : World) : W * World * RateLimitMiddleware :=
  let path := http.Path (http.RequestURL r) in
  if String.eqb path "/health" || String.eqb path "/metrics"
  then (next W _ w r σ, m)
  else
    let '(ok, lim) := rate.Allow (limiter m) (now σ) in
    let m := mkRateLimitMiddleware lim in
    if negb ok
    then
      let σ := logger.Warn "Rate limit exceeded for %s %s from %s"
                 [VStr (http.Method r); VStr path; VStr (getClientIP r)] σ in
      let σ := metrics.RecordRateLimit σ in
      let w := http.Header_Set "Retry-After" "60" w in
      (http.Error w "Rate limit exceeded" http.StatusTooManyRequests, σ, m)
    else (next W _ w r σ, m).

Fixpoint contains (slice : list string) (item : string) : bool :=
  match slice with
  | [] => false
  | s :: rest => if String.eqb s item then true else contains rest item
  end.

Definition joinStrings (slice : list string) (separator : string) : string :=
  match slice with
  | [] => EmptyString
  | first :: rest =>
      foldl (λ result s, result +:+ (separator +:+ s)) first rest
  end.

Record CORSMiddleware : Type := mkCORSMiddleware {
  allowedOrigins : list string;
  allowedMethods : list string;
  allowedHeaders : list string
}.

Definition NewCORS (origins methods headers : list string) : CORSMiddleware :=
  mkCORSMiddleware origins methods headers.

(** [CORSMiddleware.Wrap(next)] *)
Definition CORSMiddleware_Wrap (m : CORSMiddleware) (next : http.Handler)
    : http.Handler :=
  λ W HW w r σ,
    let origin := Header_Get r "Origin" in
    let w :=
      if (0 <? len (allowedOrigins m)) && contains (allowedOrigins m) origin
      then http.Header_Set "Access-Control-Allow-Origin" origin w
      else if (0 <? len (allowedOrigins m)) && contains (allowedOrigins m) "*"
      then http.Header_Set "Access-Control-Allow-Origin" "*" w
      else w in
    let w :=
      if 0 <? len (allowedMethods m)
      then http.Header_Set "Access-Control-Allow-Methods"
             (joinStrings (allowedMethods m) ", ") w
      else w in
    let w :=
      if 0 <? len (allowedHeaders m)
      then http.Header_Set "Access-Control-Allow-Headers"
             (joinStrings (allowedHeaders m) ", ") w
      else w in
    if String.eqb (http.Method r) "OPTIONS"
    then (http.WriteHeader http.StatusOK w, σ)
    else next W HW w r σ.

End middleware.

(** ** package gateway *)

Module gateway.

Record Gateway : Type := mkGateway {
  config : config.Config;
  loadBalancer : loadbalancer.LoadBalancer
}.


(** What [url.Parse] keeps of a backend URL for the proxy. *)
Record Target : Type := mkTarget {
  Host : string;
  Scheme : string
}.

Section Forwarding.

(** [url.Parse]: the target, or the text of the error. *)
Variable url_Parse : string → Target + string.

(** [httputil.NewSingleHostReverseProxy(target).ServeHTTP]: the network
    exchange with the backend.  The request's URL host, URL scheme and
    Host field, which the source overwrites with the target's, reach it
    as the target. *)
Variable proxy_ServeHTTP : Target → http.Handler.

Definition proxyHandler (gw : Gateway) {W} `{HW : http.ResponseWriter W}
    (w : W) (r : http.Request) (σ : World) : Result (W * World * Gateway) :=
  let start := now σ in
  '(backend, lb, σ) ← loadbalancer.NextBackend (loadBalancer gw) σ;
  let gw := mkGateway (config gw) lb in
  match backend with
  | None =>
      let σ := logger.Error "No healthy backends available" [] σ in
      let w := http.Error w "Service Unavailable"
                 http.StatusServiceUnavailable in
      Ok (w, metrics.RecordRequest (http.Method r) "503" "none"
               (now σ - start) σ, gw)
  | Some backend =>
      match url_Parse (config.URL backend) with
      | inr err =>
          let σ := logger.Error "Invalid backend URL %s: %v"
                     [VStr (config.URL backend); VStr err] σ in
          let w := http.Error w "Internal Server Error"
                     http.StatusInternalServerError in
          Ok (w, metrics.RecordRequest (http.Method r) "500"
                   (config.Name backend) (now σ - start) σ, gw)
      | inl target =>
          let r := http.mkRequest (http.Method r) (http.RequestURL r)
                     (<["X-Forwarded-Host" := middleware.Header_Get r "Host"]>
                        (http.Header r))
                     (http.RemoteAddr r) in
          let rw := metrics.NewResponseWriter w in
          let '(rw, σ) :=
            proxy_ServeHTTP target (metrics.ResponseWriter W)
              metrics.wrapper_ResponseWriter rw r σ in
          let duration := now σ - start in
          let σ := metrics.RecordRequest (http.Method r)
                     (metrics.StatusCode rw) (config.Name backend)
                     duration σ in
          let σ := metrics.RecordBackendRequest (config.Name backend)
                     (metrics.StatusCode rw) σ in
          let σ := logger.Debug
                     "Proxied %s %s to %s (status: %s, duration: %v)"
                     [VStr (http.Method r);
                      VStr (http.Path (http.RequestURL r));
                      VStr (config.Name backend);
                      VStr (metrics.StatusCode rw); VInt duration] σ in
          Ok (metrics.embedded rw, σ, gw)
      end
  end.

End Forwarding.



End gateway.

(** ** Clients of the load balancer: sequences of calls *)

(** [n] consecutive calls of [NextBackend], nothing in between. *)
Fixpoint calls (n : nat) (lb : loadbalancer.LoadBalancer) (σ : World)
    : Result (list (option config.Backend) * loadbalancer.LoadBalancer * World) :=
  match n with
  | O => Ok ([], lb, σ)
  | S n =>
      '(backend, lb, σ) ← loadbalancer.NextBackend lb σ;
      '(rest, lb, σ) ← calls n lb σ;
      Ok (backend :: rest, lb, σ)
  end.

(** A client's call on the load balancer. *)
Inductive Call : Type :=
| CallNextBackend
| CallSetBackendHealth (backendName : string) (healthy : bool)
| CallSetAlgorithm (algorithm : string).

(** Runs the calls in order and collects what the [NextBackend] calls
    return. *)
Fixpoint run (cs : list Call) (lb : loadbalancer.LoadBalancer) (σ : World)
    : Result (list (option config.Backend) * loadbalancer.LoadBalancer * World) :=
  match cs with
  | [] => Ok ([], lb, σ)
  | CallNextBackend :: cs =>
      '(backend, lb, σ) ← loadbalancer.NextBackend lb σ;
      '(rest, lb, σ) ← run cs lb σ;
      Ok (backend :: rest, lb, σ)
  | CallSetBackendHealth backendName healthy :: cs =>
      let '(lb, σ) := loadbalancer.SetBackendHealth backendName healthy lb σ in
      run cs lb σ
  | CallSetAlgorithm algorithm :: cs =>
      let '(lb, σ) := loadbalancer.SetAlgorithm algorithm lb σ in
      run cs lb σ
  end.

(** ** Clients of a response writer *)

(** A call on an [http.ResponseWriter]. *)
Inductive WriterCall : Type :=
| CallHeaderSet (k v : string)
| CallWriteHeader (code : Z)
| CallWrite (data : string).

Definition apply_call {W} `{http.ResponseWriter W} (w : W) (c : WriterCall)
    : W :=
  match c with
  | CallHeaderSet k v => http.Header_Set k v w
  | CallWriteHeader code => http.WriteHeader code w
  | CallWrite data => http.Write data w
  end.

(** The calls made in order on the writer [w]. *)
Definition apply_calls {W} `{http.ResponseWriter W} (cs : list WriterCall)
    (w : W) : W :=
  foldl apply_call w cs.

(** The status codes passed to [WriteHeader], in order. *)
Definition codes (cs : list WriterCall) : list Z :=
  omap (λ c, match c with CallWriteHeader code => Some code | _ => None end) cs.

(** The handler of the middleware tests: status 200, body OK. *)
Definition okHandler : http.Handler :=
  λ W HW w r σ, (http.Write "OK" (http.WriteHeader http.StatusOK w), σ).

(** A request of the tests: no headers, a fixed remote address. *)
Definition request (method path : string) : http.Request :=
  http.mkRequest method (http.mkURL path) ∅ "10.0.0.1:12345".

(** The paths the admission gate lets through unmetered. *)
Definition exempt (r : http.Request) : Prop :=
  http.Path (http.RequestURL r) = "/health" ∨
  http.Path (http.RequestURL r) = "/metrics".

(** A full rotation from the state [lb]: with [N] healthy entries, the
    first [N] of [N + 1] consecutive calls return the healthy backends,
    each once, in the order of the snapshot rotated, and the last call
    returns what the first returned. *)
Definition full_rotation (lb : loadbalancer.LoadBalancer) (σ : World) : Prop :=
  let hs := loadbalancer.getHealthyBackendsLocked lb in
  ∃ visited again lb',
    calls (S (length hs)) lb σ = Ok (Some <$> (visited ++ [again]), lb', σ) ∧
    (∃ k, visited = loadbalancer.Backend <$> rotate k hs) ∧
    visited ≡ₚ loadbalancer.Backend <$> hs ∧
    head visited = Some again.

(** Every entry of the registry that carries the name is unhealthy. *)
Definition down (name : string) (bs : list loadbalancer.BackendStatus) : Prop :=
  ∀ s, s ∈ bs → config.Name (loadbalancer.Backend s) = name →
       loadbalancer.Healthy s = false.

(** ** Concrete states *)

Definition backend1 : config.Backend :=
  config.mkBackend "backend1" "http://localhost:3001" 50 "".
Definition backend2 : config.Backend :=
  config.mkBackend "backend2" "http://localhost:3002" 50 "".
Definition backend3 : config.Backend :=
  config.mkBackend "backend3" "http://localhost:3003" 50 "".

Definition world0 : World := mkWorld 0 [] (mkCollectors ∅ ∅ ∅ ∅ 0).

Definition zeros : rand.Rand := rand.mkRand (λ _, 0) 0.

(** [New] on three backends, as in the tests of the package. *)
Definition lb3 : loadbalancer.LoadBalancer :=
  (loadbalancer.New [backend1; backend2; backend3] zeros world0).1.

(** [lb3] after 999999 calls of [NextBackend]. *)
Definition lb3_before_reset : loadbalancer.LoadBalancer :=
  loadbalancer.set_currentIndex 999999 lb3.

(** [lb3] under weighted_round_robin, as [TestWeightedRoundRobin] sets it. *)
Definition lb3_weighted : loadbalancer.LoadBalancer :=
  (loadbalancer.SetAlgorithm "weighted_round_robin" lb3 world0).1.

(** [lb3] once every backend has been reported down. *)
Definition lb3_down : loadbalancer.LoadBalancer :=
  let lb := (loadbalancer.SetBackendHealth "backend1" false lb3 world0).1 in
  let lb := (loadbalancer.SetBackendHealth "backend2" false lb world0).1 in
  (loadbalancer.SetBackendHealth "backend3" false lb world0).1.

(** Two configured backends that share one name: [New] copies the list
    as it is given, and nothing on the way from the configuration file
    compares names. *)
Definition api_a : config.Backend :=
  config.mkBackend "api" "http://localhost:4001" 50 "".
Definition api_b : config.Backend :=
  config.mkBackend "api" "http://localhost:4002" 50 "".

Definition lb_api_twice : loadbalancer.LoadBalancer :=
  (loadbalancer.New [api_a; api_b] zeros world0).1.

(** * Properties *)

Section GoRuntime.

Lemma len_nil_iff {A} (s : list A) : (len s =? 0) = true ↔ s = [].
Proof.
  unfold len. rewrite Z.eqb_eq.
  destruct s as [|x s]; split; by intros H.
Qed.

Lemma len_cons_false {A} (s : list A) : s ≠ [] → (len s =? 0) = false.
Proof.
  intros Hne. destruct (len s =? 0) eqn:E; [|done].
  by apply len_nil_iff in E.
Qed.

Lemma len_pos {A} (s : list A) : s ≠ [] → 0 < len s.
Proof. unfold len. destruct s; [done|]. rewrite length_cons. lia. Qed.

Lemma index_Ok {A} (s : list A) (i : Z) :
  0 ≤ i < len s →
  ∃ x, index s i = Ok x ∧ s !! Z.to_nat i = Some x.
Proof.
  intros [Hlo Hhi]. unfold index.
  rewrite (proj2 (Z.leb_le 0 i) Hlo), (proj2 (Z.ltb_lt i (len s)) Hhi).
  simpl. destruct (s !! Z.to_nat i) as [x|] eqn:E; [eauto|].
  apply lookup_ge_None in E. unfold len in Hhi. lia.
Qed.

Lemma index_inv {A} (s : list A) (i : Z) (x : A) :
  index s i = Ok x → 0 ≤ i < len s ∧ s !! Z.to_nat i = Some x.
Proof.
  unfold index. destruct (0 <=? i) eqn:Hlo; [|done].
  destruct (i <? len s) eqn:Hhi; [|done]. simpl.
  destruct (s !! Z.to_nat i) eqn:E; [|done].
  intros [= ->]. split; [lia|done].
Qed.

Lemma index_elem_of {A} (s : list A) (i : Z) (x : A) :
  index s i = Ok x → x ∈ s.
Proof. intros [_ H]%index_inv. by eapply list_elem_of_lookup_2. Qed.

End GoRuntime.

Import loadbalancer.

(** ** The selection engine never hands out an unhealthy entry *)

Section Selection.

Implicit Types (lb : LoadBalancer) (hs : list BackendStatus) (σ : World).

Lemma healthy_elem_of lb s :
  s ∈ getHealthyBackendsLocked lb ↔ s ∈ backends lb ∧ Healthy s = true.
Proof.
  unfold getHealthyBackendsLocked. rewrite list_elem_of_filter. tauto.
Qed.

Lemma accumulate_elem_of r c hs s : accumulate r c hs = Some s → s ∈ hs.
Proof.
  revert c. induction hs as [|b hs IH]; intros c; simpl; [done|].
  destruct (r <? int_add c (Weight b)).
  - intros [= ->]. apply list_elem_of_here.
  - intros H. apply list_elem_of_further. by eapply IH.
Qed.

(** Whatever an algorithm returns on a snapshot is an entry of that
    snapshot. *)
Lemma roundRobin_elem_of lb hs b lb' :
  roundRobin lb hs = Ok (Some b, lb') → ∃ s, s ∈ hs ∧ Backend s = b.
Proof.
  unfold roundRobin. destruct (len hs =? 0); [done|].
  destruct (index hs _) as [s|] eqn:E; simpl; [|done].
  intros [= <- _]. exists s. split; [by eapply index_elem_of|done].
Qed.

Lemma weightedRoundRobin_elem_of lb hs b lb' :
  weightedRoundRobin lb hs = Ok (Some b, lb') → ∃ s, s ∈ hs ∧ Backend s = b.
Proof.
  unfold weightedRoundRobin. destruct (len hs =? 0); [done|].
  destruct (totalWeight hs =? 0); [apply roundRobin_elem_of|].
  destruct (rand.Intn _ _) as [[r src]|]; simpl; [|done].
  destruct (accumulate r 0 hs) as [s|] eqn:E.
  - intros [= <- _]. exists s. split; [by eapply accumulate_elem_of|done].
  - destruct (index hs 0) as [s|] eqn:E0; simpl; [|done].
    intros [= <- _]. exists s. split; [by eapply index_elem_of|done].
Qed.

Lemma randomBackend_elem_of lb hs b lb' :
  randomBackend lb hs = Ok (Some b, lb') → ∃ s, s ∈ hs ∧ Backend s = b.
Proof.
  unfold randomBackend. destruct (len hs =? 0); [done|].
  destruct (rand.Intn _ _) as [[i src]|]; simpl; [|done].
  destruct (index hs i) as [s|] eqn:E; simpl; [|done].
  intros [= <- _]. exists s. split; [by eapply index_elem_of|done].
Qed.

Lemma NextBackend_elem_of lb σ b lb' σ' :
  NextBackend lb σ = Ok (Some b, lb', σ') →
  ∃ s, s ∈ backends lb ∧ Healthy s = true ∧ Backend s = b.
Proof.
  unfold NextBackend. destruct (len _ =? 0); [done|].
  set (hs := getHealthyBackendsLocked lb).
  assert (∀ r : Result (option config.Backend * LoadBalancer),
    (∀ lb1, r = Ok (Some b, lb1) → ∃ s, s ∈ hs ∧ Backend s = b) →
    ('(backend, lb0) ← r; Ok (backend, lb0, σ)) = Ok (Some b, lb', σ') →
    ∃ s, s ∈ backends lb ∧ Healthy s = true ∧ Backend s = b) as Hstep.
  { intros [[o lb1]|] Hr; simpl; [|done]. intros [= -> -> _].
    destruct (Hr lb' eq_refl) as (s & Hs & Hb).
    apply healthy_elem_of in Hs as [??]. eauto. }
  repeat case_match; apply Hstep; intros lb1;
    eauto using roundRobin_elem_of, weightedRoundRobin_elem_of,
      randomBackend_elem_of.
Qed.

(** On a non-empty snapshot no algorithm returns nil. *)
Lemma roundRobin_not_nil lb hs lb' :
  hs ≠ [] → roundRobin lb hs ≠ Ok (None, lb').
Proof.
  intros Hne. unfold roundRobin. rewrite len_cons_false by done.
  destruct (index hs _); simpl; congruence.
Qed.

Lemma weightedRoundRobin_not_nil lb hs lb' :
  hs ≠ [] → weightedRoundRobin lb hs ≠ Ok (None, lb').
Proof.
  intros Hne. unfold weightedRoundRobin. rewrite len_cons_false by done.
  destruct (totalWeight hs =? 0); [by apply roundRobin_not_nil|].
  destruct (rand.Intn _ _) as [[r src]|]; simpl; [|done].
  destruct (accumulate r 0 hs); [done|].
  destruct (index hs 0); simpl; congruence.
Qed.

Lemma randomBackend_not_nil lb hs lb' :
  hs ≠ [] → randomBackend lb hs ≠ Ok (None, lb').
Proof.
  intros Hne. unfold randomBackend. rewrite len_cons_false by done.
  destruct (rand.Intn _ _) as [[i src]|]; simpl; [|done].
  destruct (index hs i); simpl; congruence.
Qed.

End Selection.

Section Returns.

Implicit Types (lb : LoadBalancer) (hs : list BackendStatus) (σ : World).

Lemma int_wrap_small z : - 2 ^ 63 ≤ z < 2 ^ 63 → int_wrap z = z.
Proof.
  intros Hz. unfold int_wrap, int_bits.
  change (2 ^ (64 - 1)) with (2 ^ 63).
  rewrite Z.mod_small; [lia|]. change (2 ^ 64) with (2 * 2 ^ 63). lia.
Qed.

(** The entry a cursor selects, and the cursor after the step. *)
Lemma roundRobin_step lb hs :
  hs ≠ [] → 0 ≤ currentIndex lb →
  ∃ s lb', hs !! Z.to_nat (currentIndex lb `mod` len hs) = Some s ∧
    roundRobin lb hs = Ok (Some (Backend s), lb') ∧
    backends lb' = backends lb ∧ algorithm lb' = algorithm lb ∧
    randomSource lb' = randomSource lb ∧
    (currentIndex lb < 999999 → currentIndex lb' = currentIndex lb + 1) ∧
    (999999 ≤ currentIndex lb < 2 ^ 63 - 1 → currentIndex lb' = 0).
Proof.
  intros Hne Hc. pose proof (len_pos hs Hne) as Hlen.
  unfold roundRobin. rewrite len_cons_false by done.
  rewrite Z.rem_mod_nonneg by lia.
  destruct (index_Ok hs (currentIndex lb `mod` len hs)) as (s & -> & Hs).
  { by apply Z.mod_pos_bound. }
  simpl. eexists s, _. split; [done|]. split; [reflexivity|].
  repeat split.
  - by destruct (1000000 <=? _).
  - by destruct (1000000 <=? _).
  - by destruct (1000000 <=? _).
  - intros Hlt. rewrite (proj2 (Z.leb_gt _ _)); simpl.
    + unfold int_add. apply int_wrap_small. lia.
    + unfold int_add. rewrite int_wrap_small; lia.
  - intros Hge. rewrite (proj2 (Z.leb_le _ _)); simpl; [done|].
    unfold int_add. rewrite int_wrap_small; lia.
Qed.




Lemma NextBackend_no_healthy lb σ :
  getHealthyBackendsLocked lb = [] →
  NextBackend lb σ =
    Ok (None, lb, logger.Warn "No healthy backends available" [] σ).
Proof.
  intros Hnil. unfold NextBackend. by rewrite (proj2 (len_nil_iff _) Hnil).
Qed.

Lemma NextBackend_not_nil lb σ lb' σ' :
  getHealthyBackendsLocked lb ≠ [] → NextBackend lb σ ≠ Ok (None, lb', σ').
Proof.
  intros Hne. unfold NextBackend. rewrite len_cons_false by done.
  assert (∀ r : Result (option config.Backend * LoadBalancer),
    (∀ lb1, r ≠ Ok (None, lb1)) →
    ('(backend, lb0) ← r; Ok (backend, lb0, σ)) ≠ Ok (None, lb', σ')) as Hstep.
  { intros [[[b|] lb1]|] Hr; simpl; [congruence| |done].
    by destruct (Hr lb1). }
  repeat case_match; apply Hstep; intros lb1;
    auto using roundRobin_not_nil, weightedRoundRobin_not_nil,
      randomBackend_not_nil.
Qed.

End Returns.



(** ** Round robin *)

Section RoundRobin.

Implicit Types (lb : LoadBalancer) (hs : list BackendStatus) (σ : World).

Lemma NextBackend_round_robin lb σ :
  algorithm lb = "round_robin" →
  getHealthyBackendsLocked lb ≠ [] →
  NextBackend lb σ =
    '(backend, lb') ← roundRobin lb (getHealthyBackendsLocked lb);
    Ok (backend, lb', σ).
Proof.
  intros Ha Hne. unfold NextBackend.
  rewrite len_cons_false by done. by rewrite Ha.
Qed.

Lemma healthy_same_backends lb lb' :
  backends lb' = backends lb →
  getHealthyBackendsLocked lb' = getHealthyBackendsLocked lb.
Proof. unfold getHealthyBackendsLocked. by intros ->. Qed.

(** The cursor counts modulo 1000000; the [i]-th of [k] consecutive calls
    returns the entry at the cursor modulo the size of the snapshot. *)
Lemma calls_round_robin σ k : ∀ lb,
  algorithm lb = "round_robin" →
  getHealthyBackendsLocked lb ≠ [] →
  0 ≤ currentIndex lb < 1000000 →
  ∃ picks lb',
    calls k lb σ = Ok (Some <$> (Backend <$> picks), lb', σ) ∧
    length picks = k ∧
    (∀ i, (i < k)%nat →
       picks !! i =
       getHealthyBackendsLocked lb !!
         Z.to_nat (((currentIndex lb + Z.of_nat i) `mod` 1000000)
                   `mod` len (getHealthyBackendsLocked lb))) ∧
    backends lb' = backends lb ∧ algorithm lb' = algorithm lb ∧
    randomSource lb' = randomSource lb ∧
    currentIndex lb' = (currentIndex lb + Z.of_nat k) `mod` 1000000.
Proof.
  induction k as [|k IH]; intros lb Ha Hne Hc.
  { exists [], lb. repeat split; try done.
    - intros i Hi. lia.
    - rewrite Z.add_0_r, Z.mod_small; lia. }
  destruct (roundRobin_step lb _ Hne (proj1 Hc))
    as (s & lb1 & Hs & Hrr & Hb & Halg & Hsrc & Hlt & Hge).
  pose proof (healthy_same_backends lb lb1 Hb) as Hhs.
  assert (currentIndex lb1 = (currentIndex lb + 1) `mod` 1000000) as Hc1.
  { destruct (decide (currentIndex lb < 999999)) as [Hl|Hl].
    - rewrite Hlt, Z.mod_small by lia. done.
    - rewrite Hge by lia. replace (currentIndex lb) with 999999 by lia. done. }
  destruct (IH lb1) as (picks & lb' & Hcalls & Hlen & Hpicks & Hb' & Ha' & Hs' & Hc').
  { congruence. }
  { by rewrite Hhs. }
  { rewrite Hc1. apply Z.mod_pos_bound. lia. }
  exists (s :: picks), lb'. split.
  { cbn [calls]. rewrite NextBackend_round_robin, Hrr by done.
    cbn [mbind Result_bind]. rewrite Hcalls. done. }
  split; [simpl; lia|]. split; [|repeat split; try congruence].
  - intros [|i] Hi.
    + simpl. rewrite Z.add_0_r, (Z.mod_small (currentIndex lb)) by lia. done.
    + simpl. rewrite Hpicks, Hhs, Hc1 by lia.
      rewrite Zplus_mod_idemp_l.
      by replace (currentIndex lb + 1 + Z.of_nat i)
        with (currentIndex lb + Z.of_nat (S i)) by lia.
  - rewrite Hc', Hc1, Zplus_mod_idemp_l.
    by replace (currentIndex lb + 1 + Z.of_nat k)
      with (currentIndex lb + Z.of_nat (S k)) by lia.
Qed.

(** The cursor of a load balancer made by [New] stays within
    [0, 1000000): every call keeps it there. *)
Lemma roundRobin_cursor lb hs o lb' :
  0 ≤ currentIndex lb < 1000000 →
  roundRobin lb hs = Ok (o, lb') →
  0 ≤ currentIndex lb' < 1000000.
Proof.
  intros Hc. unfold roundRobin. destruct (len hs =? 0); [by intros [= _ <-]|].
  destruct (index hs _); simpl; [|done]. intros [= _ <-].
  unfold int_add. rewrite int_wrap_small by lia.
  destruct (1000000 <=? currentIndex lb + 1) eqn:E; simpl; [lia|].
  apply Z.leb_gt in E. lia.
Qed.

Lemma NextBackend_cursor lb σ o lb' σ' :
  0 ≤ currentIndex lb < 1000000 →
  NextBackend lb σ = Ok (o, lb', σ') →
  0 ≤ currentIndex lb' < 1000000.
Proof.
  intros Hc. unfold NextBackend. destruct (len _ =? 0); [by intros [= _ <- _]|].
  set (hs := getHealthyBackendsLocked lb).
  assert (∀ r : Result (option config.Backend * LoadBalancer),
    (∀ o1 lb1, r = Ok (o1, lb1) → 0 ≤ currentIndex lb1 < 1000000) →
    ('(backend, lb0) ← r; Ok (backend, lb0, σ)) = Ok (o, lb', σ') →
    0 ≤ currentIndex lb' < 1000000) as Hstep.
  { intros [[o1 lb1]|] Hr; simpl; [|done]. intros [= _ <- _]. eauto. }
  assert (∀ o1 lb1, weightedRoundRobin lb hs = Ok (o1, lb1) →
                    0 ≤ currentIndex lb1 < 1000000) as Hw.
  { intros o1 lb1. unfold weightedRoundRobin.
    destruct (len hs =? 0); [by intros [= _ <-]|].
    destruct (totalWeight hs =? 0); [by apply roundRobin_cursor|].
    destruct (rand.Intn _ _) as [[r src]|]; simpl; [|done].
    destruct (accumulate r 0 hs); [by intros [= _ <-]|].
    destruct (index hs 0); simpl; [|done]. by intros [= _ <-]. }
  assert (∀ o1 lb1, randomBackend lb hs = Ok (o1, lb1) →
                    0 ≤ currentIndex lb1 < 1000000) as Hr.
  { intros o1 lb1. unfold randomBackend.
    destruct (len hs =? 0); [by intros [= _ <-]|].
    destruct (rand.Intn _ _) as [[i src]|]; simpl; [|done].
    destruct (index hs i); simpl; [|done]. by intros [= _ <-]. }
  repeat case_match; apply Hstep; eauto using roundRobin_cursor.
Qed.

End RoundRobin.

Lemma rotate_Permutation {A} (k : nat) (l : list A) : rotate k l ≡ₚ l.
Proof.
  unfold rotate. rewrite Permutation_app_comm. by rewrite take_drop.
Qed.

(** C2, amended.  Under round_robin, from a cursor of [0, 1000000) and
    with N healthy backends, N + 1 consecutive calls make a full rotation
    provided the reset of the cursor at 1000000 does not fall among them
    (cursor + N < 1000000) or N divides 1000000: the first N calls return
    the snapshot rotated by the cursor, every healthy backend once, and
    call N + 1 returns what the first call returned. *)
Theorem round_robin_full_rotation (lb : LoadBalancer) (σ : World) :
  algorithm lb = "round_robin" →
  getHealthyBackendsLocked lb ≠ [] →
  0 ≤ currentIndex lb < 1000000 →
  currentIndex lb + len (getHealthyBackendsLocked lb) < 1000000 ∨
    (len (getHealthyBackendsLocked lb) | 1000000) →
  full_rotation lb σ ∧
  ∃ again lb',
    calls (S (length (getHealthyBackendsLocked lb))) lb σ =
      Ok (Some <$> ((Backend <$> rotate (Z.to_nat (currentIndex lb))
                                   (getHealthyBackendsLocked lb)) ++ [again]),
          lb', σ) ∧
    head (Backend <$> rotate (Z.to_nat (currentIndex lb))
                        (getHealthyBackendsLocked lb)) = Some again.
Proof.
  intros Ha Hne Hc Hwin. unfold full_rotation.
  set (hs := getHealthyBackendsLocked lb) in *.
  pose proof (len_pos hs Hne) as HN.
  destruct (calls_round_robin σ (S (length hs)) lb Ha Hne Hc)
    as (picks & lb' & Hcalls & Hlen & Hpicks & _).
  fold hs in Hpicks.
  assert (∀ i, (i ≤ length hs)%nat →
    picks !! i = hs !! Z.to_nat ((currentIndex lb + Z.of_nat i) `mod` len hs))
    as Hidx.
  { intros i Hi. rewrite Hpicks by lia. do 2 f_equal.
    destruct Hwin as [Hlt|Hdiv].
    - rewrite (Z.mod_small _ 1000000); [done|]. unfold len in Hlt. lia.
    - by apply Z.mod_mod_divide. }
  destruct (lookup_lt_is_Some_2 picks (length hs)) as [a Ha']; [lia|].
  assert (picks = take (length hs) picks ++ [a]) as Hsplit.
  { rewrite <-(take_S_r _ _ _ Ha'). symmetry. apply take_ge. lia. }
  assert (take (length hs) picks = rotate (Z.to_nat (currentIndex lb)) hs)
    as Hrot.
  { apply list_eq. intros i.
    destruct (decide (i < length hs)%nat) as [Hi|Hi].
    - rewrite lookup_take_lt, lookup_rotate_r, Hidx by lia.
      unfold rotate_nat_add, len. by rewrite Z2Nat.id by lia.
    - rewrite lookup_take_ge by lia. symmetry.
      apply lookup_ge_None_2. rewrite length_rotate. lia. }
  assert (calls (S (length hs)) lb σ =
          Ok (Some <$> ((Backend <$> rotate (Z.to_nat (currentIndex lb)) hs) ++
                        [Backend a]), lb', σ)) as Hrun.
  { rewrite Hcalls. do 3 f_equal. rewrite Hsplit at 1.
    by rewrite fmap_app, Hrot. }
  assert (head (Backend <$> rotate (Z.to_nat (currentIndex lb)) hs) =
          Some (Backend a)) as Hhead.
  { assert (0 < length hs)%nat as HN' by (unfold len in HN; lia).
    rewrite <-Hrot.
    rewrite head_lookup, list_lookup_fmap, lookup_take_lt by lia.
    rewrite (Hidx 0%nat), <-(Z_mod_plus_full _ 1 (len hs)) by lia.
    unfold len at 1. rewrite Z.add_0_r, Z.mul_1_l, <-Hidx, Ha' by lia.
    done. }
  split.
  - exists (Backend <$> rotate (Z.to_nat (currentIndex lb)) hs), (Backend a), lb'.
    split; [exact Hrun|]. split; [by eexists|].
    split; [by rewrite rotate_Permutation|exact Hhead].
  - by exists (Backend a), lb'.
Qed.

Lemma round_robin_full_rotation_witness :
  (algorithm lb3 = "round_robin" ∧
   getHealthyBackendsLocked lb3 ≠ [] ∧
   0 ≤ currentIndex lb3 < 1000000 ∧
   currentIndex lb3 + len (getHealthyBackendsLocked lb3) < 1000000) ∧
  full_rotation lb3 world0 ∧
  ∃ again lb',
    calls (S (length (getHealthyBackendsLocked lb3))) lb3 world0 =
      Ok (Some <$> ((Backend <$> rotate (Z.to_nat (currentIndex lb3))
                                   (getHealthyBackendsLocked lb3)) ++ [again]),
          lb', world0) ∧
    head (Backend <$> rotate (Z.to_nat (currentIndex lb3))
                        (getHealthyBackendsLocked lb3)) = Some again.
Proof.
  assert (algorithm lb3 = "round_robin") as H1 by reflexivity.
  assert (getHealthyBackendsLocked lb3 ≠ []) as H2 by (vm_compute; discriminate).
  assert (0 ≤ currentIndex lb3 < 1000000) as H3
    by (change (currentIndex lb3) with 0; lia).
  assert (currentIndex lb3 + len (getHealthyBackendsLocked lb3) < 1000000)
    as H4 by (vm_compute; reflexivity).
  split; [auto|].
  exact (round_robin_full_rotation lb3 world0 H1 H2 H3 (or_introl H4)).
Defined.

(** C2 as stated, for any cursor value, fails where the cursor is reset:
    [lb3_before_reset] is reached from [New] by 999999 calls; its three
    healthy backends are then served as backend1, backend1, backend2, and
    the fourth call returns backend3. *)
Lemma round_robin_rotation_broken_by_reset :
  algorithm lb3_before_reset = "round_robin" ∧
  length (getHealthyBackendsLocked lb3_before_reset) = 3%nat ∧
  (∃ outs, calls (Z.to_nat 999999) lb3 world0 =
           Ok (outs, lb3_before_reset, world0)) ∧
  calls 4 lb3_before_reset world0 =
    Ok ([Some backend1; Some backend1; Some backend2; Some backend3],
        set_currentIndex 3 lb3, world0) ∧
  ¬ full_rotation lb3_before_reset world0.
Proof.
  assert (calls 4 lb3_before_reset world0 =
    Ok ([Some backend1; Some backend1; Some backend2; Some backend3],
        set_currentIndex 3 lb3, world0)) as Hfour by (vm_compute; reflexivity).
  split; [reflexivity|]. split; [reflexivity|]. split; [|split; [exact Hfour|]].
  - destruct (calls_round_robin world0 (Z.to_nat 999999) lb3)
      as (picks & lb' & Hcalls & _ & _ & Hb & Ha & Hs & Hc).
    { reflexivity. }
    { vm_compute. discriminate. }
    { change (currentIndex lb3) with 0. lia. }
    eexists. rewrite Hcalls. do 2 f_equal.
    rewrite Z2Nat.id in Hc by lia.
    destruct lb' as [bs c src alg]. simpl in Hb, Ha, Hs, Hc. by subst.
  - intros (visited & again & lb' & Hcalls & _ & _ & Hhead).
    change (length (getHealthyBackendsLocked lb3_before_reset)) with 3%nat
      in Hcalls.
    rewrite Hfour in Hcalls. clear Hfour.
    injection Hcalls as Hlist _.
    assert (length visited = 3%nat) as Hlen.
    { apply (f_equal length) in Hlist.
      rewrite length_fmap, length_app in Hlist. simpl in Hlist. lia. }
    destruct visited as [|v1 [|v2 [|v3 [|v4 ?]]]]; simplify_eq/=.
Qed.

(** ** Weighted selection *)

Section Weighted.

Implicit Types (lb : LoadBalancer) (hs : list BackendStatus).

Lemma totalWeight_snoc hs s :
  totalWeight (hs ++ [s]) = int_add (totalWeight hs) (Weight s).
Proof. unfold totalWeight. by rewrite foldl_snoc. Qed.

(** The accumulation loop started at the running sum [c]: when the draw
    lies between [c] and the final sum, the loop returns at the first
    entry whose running sum exceeds the draw. *)
Lemma accumulate_slice hs : ∀ c r,
  c ≤ r < foldl (λ total backend, int_add total (Weight backend)) c hs →
  ∃ pre s post, hs = pre ++ s :: post ∧
    accumulate r c hs = Some s ∧
    foldl (λ total backend, int_add total (Weight backend)) c pre ≤ r
      < foldl (λ total backend, int_add total (Weight backend)) c (pre ++ [s]).
Proof.
  induction hs as [|b hs IH]; intros c r Hr; simpl in Hr; [lia|].
  simpl. destruct (r <? int_add c (Weight b)) eqn:E.
  - apply Z.ltb_lt in E. exists [], b, hs. simpl. repeat split; [lia|done].
  - apply Z.ltb_ge in E.
    destruct (IH (int_add c (Weight b)) r) as (pre & s & post & -> & Hacc & Hs).
    { lia. }
    exists (b :: pre), s, post. split; [done|]. split; [done|]. exact Hs.
Qed.

End Weighted.

(** C5. In [weightedRoundRobin], a total weight of zero falls back to the
    round-robin step.  With a positive total and non-negative weights,
    every draw of [0, totalWeight) makes the accumulation loop return at
    an entry whose slice of the running sum contains the draw, and the
    call returns that entry's backend: the return of the first entry
    after the loop is not reached. *)
Theorem weightedRoundRobin_selects (lb : LoadBalancer)
    (hs : list BackendStatus) :
  (totalWeight hs = 0 → weightedRoundRobin lb hs = roundRobin lb hs) ∧
  (0 < totalWeight hs →
   (∀ s, s ∈ hs → 0 ≤ Weight s) →
   (∀ r, 0 ≤ r < totalWeight hs →
      ∃ pre s post, hs = pre ++ s :: post ∧
        accumulate r 0 hs = Some s ∧
        totalWeight pre ≤ r < totalWeight (pre ++ [s])) ∧
   (∃ r src s, rand.Intn (randomSource lb) (totalWeight hs) = Ok (r, src) ∧
      0 ≤ r < totalWeight hs ∧
      accumulate r 0 hs = Some s ∧
      weightedRoundRobin lb hs =
        Ok (Some (Backend s), set_randomSource src lb))).
Proof.
  split.
  - intros Hzero. unfold weightedRoundRobin, roundRobin.
    destruct (len hs =? 0); [done|]. by rewrite Hzero.
  - intros Hpos _. split.
    + intros r Hr. by apply accumulate_slice.
    + assert (hs ≠ []) as Hne by (intros ->; unfold totalWeight in Hpos; simpl in Hpos; lia).
      set (r := rand.raws (randomSource lb) (rand.consumed (randomSource lb))
                  `mod` totalWeight hs).
      assert (0 ≤ r < totalWeight hs) as Hr by (by apply Z.mod_pos_bound).
      destruct (accumulate_slice hs 0 r Hr) as (pre & s & post & _ & Hacc & _).
      exists r, (rand.mkRand (rand.raws (randomSource lb))
                   (S (rand.consumed (randomSource lb)))), s.
      assert (rand.Intn (randomSource lb) (totalWeight hs) =
              Ok (r, rand.mkRand (rand.raws (randomSource lb))
                       (S (rand.consumed (randomSource lb))))) as HIntn.
      { unfold rand.Intn. by rewrite (proj2 (Z.leb_gt _ _)) by lia. }
      repeat split; try done; try lia.
      unfold weightedRoundRobin. rewrite len_cons_false by done.
      rewrite (proj2 (Z.eqb_neq _ _)) by lia.
      rewrite HIntn. cbn [mbind Result_bind]. by rewrite Hacc.
Qed.

Lemma weightedRoundRobin_selects_witness :
  let hs := getHealthyBackendsLocked lb3_weighted in
  (0 < totalWeight hs ∧ (∀ s, s ∈ hs → 0 ≤ Weight s)) ∧
  ∃ pre s post, hs = pre ++ s :: post ∧
    accumulate 70 0 hs = Some s ∧
    totalWeight pre ≤ 70 < totalWeight (pre ++ [s]).
Proof.
  intros hs.
  assert (0 < totalWeight hs) as Hpos by (vm_compute; reflexivity).
  assert (∀ s, s ∈ hs → 0 ≤ Weight s) as Hnn.
  { intros s Hs. apply healthy_elem_of in Hs as [Hs _].
    change (backends lb3_weighted) with
      [mkBackendStatus backend1 true 50; mkBackendStatus backend2 true 50;
       mkBackendStatus backend3 true 50] in Hs.
    rewrite !elem_of_cons, elem_of_nil in Hs.
    destruct Hs as [->|[->|[->|[]]]]; simpl; lia. }
  split; [done|].
  apply (proj2 (weightedRoundRobin_selects lb3_weighted hs) Hpos Hnn).
  vm_compute. split; [discriminate|reflexivity].
Defined.

(** ** Health updates *)

Section Health.

Implicit Types (lb : LoadBalancer) (bs hs : list BackendStatus) (σ : World).

Lemma SetBackendHealth_loop_None name healthy bs σ :
  SetBackendHealth_loop name healthy bs σ = None ↔
  ∀ s, s ∈ bs → config.Name (Backend s) ≠ name.
Proof.
  induction bs as [|b bs IH]; simpl.
  - split; [|done]. intros _ s Hs. by apply elem_of_nil in Hs.
  - destruct (String.eqb_spec (config.Name (Backend b)) name) as [Hb|Hb].
    + split.
      * by destruct (negb _).
      * intros H. destruct (H b); [apply list_elem_of_here|done].
    + destruct (SetBackendHealth_loop name healthy bs σ) as [[bs' σ']|].
      * split; [done|]. intros H. apply proj2 in IH.
        discriminate IH. intros s Hs. apply H. by apply list_elem_of_further.
      * split; [|done]. intros _ s [->|Hs]%elem_of_cons; [done|].
        by apply (proj1 IH).
Qed.

(** The loop changes at most the health flag of entries that carry the
    name it was called with. *)
Lemma SetBackendHealth_loop_entries name healthy bs σ bs' σ' :
  SetBackendHealth_loop name healthy bs σ = Some (bs', σ') →
  ∀ s', s' ∈ bs' →
    s' ∈ bs ∨
    ∃ s, s ∈ bs ∧ config.Name (Backend s) = name ∧ s' = set_Healthy healthy s.
Proof.
  revert bs' σ'. induction bs as [|b bs IH]; intros bs' σ'; simpl; [done|].
  destruct (String.eqb_spec (config.Name (Backend b)) name) as [Hb|Hb].
  - destruct (negb _); intros [= <- _] s' [->|Hs]%elem_of_cons.
    + right. exists b. split; [apply list_elem_of_here|done].
    + left. by apply list_elem_of_further.
    + left. apply list_elem_of_here.
    + left. by apply list_elem_of_further.
  - destruct (SetBackendHealth_loop name healthy bs σ) as [[bs1 σ1]|];
      [|done].
    intros [= <- _] s' [->|Hs]%elem_of_cons.
    + left. apply list_elem_of_here.
    + destruct (IH bs1 σ1 eq_refl s' Hs) as [?|(s & ? & ? & ?)].
      * left. by apply list_elem_of_further.
      * right. exists s. split; [by apply list_elem_of_further|done].
Qed.

Lemma SetBackendHealth_loop_down name bs σ bs' σ' :
  NoDup (config.Name ∘ Backend <$> bs) →
  SetBackendHealth_loop name false bs σ = Some (bs', σ') →
  down name bs'.
Proof.
  revert bs' σ'. induction bs as [|b bs IH]; intros bs' σ'; simpl; [done|].
  rewrite NoDup_cons. intros [Hb' Hnd].
  destruct (String.eqb_spec (config.Name (Backend b)) name) as [Hb|Hb].
  - assert (∀ s, s ∈ bs → config.Name (Backend s) ≠ name) as Hrest.
    { intros s Hs Hname. apply Hb'. apply list_elem_of_fmap.
      exists s. split; [|done]. simpl. congruence. }
    destruct (Healthy b) eqn:Hh; simpl; intros [= <- _] s [->|Hs]%elem_of_cons;
      intros Hname; try done; by destruct (Hrest s).
  - destruct (SetBackendHealth_loop name false bs σ) as [[bs1 σ1]|]; [|done].
    intros [= <- _] s [->|Hs]%elem_of_cons Hname; [done|].
    by apply (IH bs1 σ1 Hnd eq_refl).
Qed.

Lemma SetBackendHealth_down name lb σ :
  NoDup (config.Name ∘ Backend <$> backends lb) →
  down name (backends (SetBackendHealth name false lb σ).1).
Proof.
  intros Hnd. unfold SetBackendHealth.
  destruct (SetBackendHealth_loop name false (backends lb) σ)
    as [[bs' σ']|] eqn:E; simpl.
  - by eapply SetBackendHealth_loop_down.
  - intros s Hs Hname.
    by destruct (proj1 (SetBackendHealth_loop_None _ _ _ _) E s).
Qed.

Lemma SetBackendHealth_keeps_down name n h lb σ :
  (n = name → h = false) →
  down name (backends lb) →
  down name (backends (SetBackendHealth n h lb σ).1).
Proof.
  intros Hnh Hdown. unfold SetBackendHealth.
  destruct (SetBackendHealth_loop n h (backends lb) σ)
    as [[bs' σ']|] eqn:E; simpl; [|done].
  intros s' Hs' Hname.
  destruct (SetBackendHealth_loop_entries _ _ _ _ _ _ E s' Hs')
    as [?|(s & Hs & Hn & ->)]; [by apply Hdown|].
  simpl in *. apply Hnh. congruence.
Qed.

Lemma roundRobin_backends lb hs o lb' :
  roundRobin lb hs = Ok (o, lb') → backends lb' = backends lb.
Proof.
  unfold roundRobin. destruct (len hs =? 0); [by intros [= _ <-]|].
  destruct (index hs _); simpl; [|done].
  intros [= _ <-]. by destruct (1000000 <=? _).
Qed.

Lemma weightedRoundRobin_backends lb hs o lb' :
  weightedRoundRobin lb hs = Ok (o, lb') → backends lb' = backends lb.
Proof.
  unfold weightedRoundRobin. destruct (len hs =? 0); [by intros [= _ <-]|].
  destruct (totalWeight hs =? 0); [apply roundRobin_backends|].
  destruct (rand.Intn _ _) as [[r src]|]; simpl; [|done].
  destruct (accumulate r 0 hs); [by intros [= _ <-]|].
  destruct (index hs 0); simpl; [|done]. by intros [= _ <-].
Qed.

Lemma randomBackend_backends lb hs o lb' :
  randomBackend lb hs = Ok (o, lb') → backends lb' = backends lb.
Proof.
  unfold randomBackend. destruct (len hs =? 0); [by intros [= _ <-]|].
  destruct (rand.Intn _ _) as [[i src]|]; simpl; [|done].
  destruct (index hs i); simpl; [|done]. by intros [= _ <-].
Qed.

Lemma NextBackend_backends lb σ o lb' σ' :
  NextBackend lb σ = Ok (o, lb', σ') → backends lb' = backends lb.
Proof.
  unfold NextBackend. destruct (len _ =? 0); [by intros [= _ <- _]|].
  set (hs := getHealthyBackendsLocked lb).
  assert (∀ r : Result (option config.Backend * LoadBalancer),
    (∀ o1 lb1, r = Ok (o1, lb1) → backends lb1 = backends lb) →
    ('(backend, lb0) ← r; Ok (backend, lb0, σ)) = Ok (o, lb', σ') →
    backends lb' = backends lb) as Hstep.
  { intros [[o1 lb1]|] Hr; simpl; [|done]. intros [= _ <- _]. eauto. }
  repeat case_match; apply Hstep; intros o1 lb1;
    eauto using roundRobin_backends, weightedRoundRobin_backends,
      randomBackend_backends.
Qed.

Lemma SetAlgorithm_backends a lb σ :
  backends (SetAlgorithm a lb σ).1 = backends lb.
Proof. unfold SetAlgorithm. by destruct (negb _). Qed.

(** While every entry carrying the name is unhealthy, no call returns a
    backend of that name. *)
Lemma run_down name cs : ∀ lb σ outs lb' σ',
  (∀ h, CallSetBackendHealth name h ∈ cs → h = false) →
  down name (backends lb) →
  run cs lb σ = Ok (outs, lb', σ') →
  down name (backends lb') ∧
  ∀ b, Some b ∈ outs → config.Name b ≠ name.
Proof.
  induction cs as [|c cs IH]; intros lb σ outs lb' σ' Hcs Hdown; simpl.
  { intros [= <- <- _]. split; [done|]. intros b Hb.
    by apply elem_of_nil in Hb. }
  assert (∀ h, CallSetBackendHealth name h ∈ cs → h = false) as Hcs'.
  { intros h Hh. apply Hcs. by apply list_elem_of_further. }
  destruct c as [|n h|a].
  - destruct (NextBackend lb σ) as [[[o lb1] σ1]|] eqn:E; simpl; [|done].
    destruct (run cs lb1 σ1) as [[[rest lb2] σ2]|] eqn:Er; simpl; [|done].
    intros [= <- <- _].
    pose proof (NextBackend_backends _ _ _ _ _ E) as Hb.
    destruct (IH lb1 σ1 rest lb2 σ2 Hcs') as [Hd Hrest]; [by rewrite Hb|done|].
    split; [done|]. intros b [Hhd|Hin]%elem_of_cons; [|by apply Hrest].
    subst o. destruct (NextBackend_elem_of _ _ _ _ _ E) as (s & Hs & Hh & <-).
    intros Hname. specialize (Hdown s Hs Hname). congruence.
  - destruct (SetBackendHealth n h lb σ) as [lb1 σ1] eqn:E.
    apply IH; [done|].
    change lb1 with (lb1, σ1).1. rewrite <-E.
    apply SetBackendHealth_keeps_down; [|done].
    intros ->. apply Hcs. apply list_elem_of_here.
  - destruct (SetAlgorithm a lb σ) as [lb1 σ1] eqn:E.
    apply IH; [done|].
    change lb1 with (lb1, σ1).1. by rewrite <-E, SetAlgorithm_backends.
Qed.

(** After [SetBackendHealth(name, true)] an entry of that name, if there
    is one, is part of the healthy snapshot. *)
Lemma SetBackendHealth_up name lb σ :
  (∃ s, s ∈ backends lb ∧ config.Name (Backend s) = name) →
  ∃ s, s ∈ getHealthyBackendsLocked (SetBackendHealth name true lb σ).1 ∧
       config.Name (Backend s) = name.
Proof.
  intros Hex. unfold SetBackendHealth.
  destruct (SetBackendHealth_loop name true (backends lb) σ)
    as [[bs' σ']|] eqn:E; simpl.
  - clear Hex. revert bs' σ' E.
    induction (backends lb) as [|b bs IH]; intros bs' σ'; simpl; [done|].
    destruct (String.eqb_spec (config.Name (Backend b)) name) as [Hb|Hb].
    + destruct (Healthy b) eqn:Hh; simpl; intros [= <- _].
      * exists b. split; [|done]. apply healthy_elem_of. simpl.
        split; [apply list_elem_of_here|done].
      * exists (set_Healthy true b). split; [|done].
        apply healthy_elem_of. simpl. split; [apply list_elem_of_here|done].
    + destruct (SetBackendHealth_loop name true bs σ) as [[bs1 σ1]|]; [|done].
      intros [= <- _]. destruct (IH bs1 σ1 eq_refl) as (s & Hs & Hname).
      exists s. split; [|done]. apply healthy_elem_of in Hs as [Hs Hh].
      apply healthy_elem_of. simpl in *. split; [|done].
      by apply list_elem_of_further.
  - destruct Hex as (s & Hs & Hname).
    by destruct (proj1 (SetBackendHealth_loop_None _ _ _ _) E s).
Qed.

End Health.

(** C4, amended.  Once [SetBackendHealth(name, false)] has run on a
    registry whose names are pairwise distinct, no later [NextBackend] call
    returns a backend of that name, under any algorithm and whatever other
    calls come in between, for as long as no [SetBackendHealth(name, true)]
    is made; and in any state, [SetBackendHealth(name, true)] puts the entry
    of that name back into the healthy snapshot the next selection reads. *)
Theorem unhealthy_backend_never_selected (name : string)
    (lb : LoadBalancer) (σ : World) (cs : list Call)
    (outs : list (option config.Backend)) (lb' : LoadBalancer) (σ' : World) :
  NoDup (config.Name ∘ Backend <$> backends lb) →
  (∀ h, CallSetBackendHealth name h ∈ cs → h = false) →
  run cs (SetBackendHealth name false lb σ).1
         (SetBackendHealth name false lb σ).2 = Ok (outs, lb', σ') →
  (∀ b, Some b ∈ outs → config.Name b ≠ name) ∧
  (∀ lb0 σ0,
     (∃ s, s ∈ backends lb0 ∧ config.Name (Backend s) = name) →
     ∃ s, s ∈ getHealthyBackendsLocked (SetBackendHealth name true lb0 σ0).1 ∧
          config.Name (Backend s) = name).
Proof.
  intros Hnd Hcs Hrun. split.
  - eapply run_down; [exact Hcs| |exact Hrun].
    by apply SetBackendHealth_down.
  - intros lb0 σ0. apply SetBackendHealth_up.
Qed.

Lemma unhealthy_backend_never_selected_witness :
  let cs := [CallNextBackend; CallSetAlgorithm "random"; CallNextBackend;
             CallSetBackendHealth "backend2" false;
             CallSetAlgorithm "weighted_round_robin";
             CallNextBackend; CallNextBackend] in
  ∃ lb' σ',
    run cs (SetBackendHealth "backend1" false lb3 world0).1
           (SetBackendHealth "backend1" false lb3 world0).2 =
      Ok ([Some backend2; Some backend2; Some backend3; Some backend3],
          lb', σ') ∧
    (∀ b, Some b ∈ [Some backend2; Some backend2; Some backend3; Some backend3] →
          config.Name b ≠ "backend1") ∧
    ∃ s, s ∈ getHealthyBackendsLocked
               (SetBackendHealth "backend1" true lb' σ').1 ∧
         config.Name (Backend s) = "backend1".
Proof.
  intros cs.
  evar (lb' : LoadBalancer). evar (σ' : World).
  assert (run cs (SetBackendHealth "backend1" false lb3 world0).1
                 (SetBackendHealth "backend1" false lb3 world0).2 =
          Ok ([Some backend2; Some backend2; Some backend3; Some backend3],
              lb', σ')) as Hrun.
  { subst lb' σ'. vm_compute. reflexivity. }
  assert (NoDup (config.Name ∘ Backend <$> backends lb3)) as Hnd
    by compute_done.
  assert (∀ h, CallSetBackendHealth "backend1" h ∈ cs → h = false) as Hcs.
  { intros h Hh. subst cs. rewrite !elem_of_cons, elem_of_nil in Hh.
    destruct Hh as [Hh|[Hh|[Hh|[Hh|[Hh|[Hh|[Hh|[]]]]]]]]; discriminate Hh. }
  destruct (unhealthy_backend_never_selected "backend1" lb3 world0 cs _ lb' σ'
              Hnd Hcs Hrun) as [Hnever Hup].
  exists lb', σ'. split; [exact Hrun|]. split; [exact Hnever|].
  apply Hup. exists (mkBackendStatus backend1 false 50).
  split; [|reflexivity]. subst lb'. simpl.
  rewrite !elem_of_cons. by left.
Defined.

(** C4 as stated, for any registry, fails where two entries carry the
    same name: [SetBackendHealth] returns at the first entry that matches,
    so after [SetBackendHealth("api", false)] on [lb_api_twice] the second
    entry is still healthy and the very next [NextBackend] returns it, a
    backend named "api". *)
Lemma unhealthy_name_selected_among_duplicates :
  let st := SetBackendHealth "api" false lb_api_twice world0 in
  Healthy <$> backends st.1 = [false; true] ∧
  (∃ lb', NextBackend st.1 st.2 = Ok (Some api_b, lb', st.2)) ∧
  config.Name api_b = "api" ∧
  ¬ (∀ outs lb' σ',
       run [CallNextBackend] st.1 st.2 = Ok (outs, lb', σ') →
       ∀ b, Some b ∈ outs → config.Name b ≠ "api").
Proof.
  intros st.
  split; [reflexivity|]. split; [by eexists|]. split; [reflexivity|].
  intros H.
  evar (lb' : LoadBalancer).
  assert (run [CallNextBackend] st.1 st.2 = Ok ([Some api_b], lb', st.2))
    as Hrun by (subst lb'; vm_compute; reflexivity).
  apply (H _ _ _ Hrun api_b); [apply list_elem_of_here|reflexivity].
Qed.

(** C9. [SetBackendHealth] with a name that no entry of the registry
    carries leaves the load balancer as it is, health flags and weights
    included, and reports the mismatch by one call to [logger.Warn]; it
    returns nothing else to its caller. *)
Theorem SetBackendHealth_unknown_name (name : string) (healthy : bool)
    (lb : LoadBalancer) (σ : World) :
  (∀ s, s ∈ backends lb → config.Name (Backend s) ≠ name) →
  SetBackendHealth name healthy lb σ =
    (lb, logger.Warn "Backend %s not found when updating health status"
           [VStr name] σ) ∧
  logged (SetBackendHealth name healthy lb σ).2 =
    logged σ ++
    [mkLogCall WarnLevel "Backend %s not found when updating health status"
       [VStr name]] ∧
  collectors (SetBackendHealth name healthy lb σ).2 = collectors σ.
Proof.
  intros Hnone. apply SetBackendHealth_loop_None with (healthy := healthy)
    (σ := σ) in Hnone.
  unfold SetBackendHealth. by rewrite Hnone.
Qed.

Lemma SetBackendHealth_unknown_name_witness :
  SetBackendHealth "backend9" false lb3 world0 =
    (lb3, logger.Warn "Backend %s not found when updating health status"
            [VStr "backend9"] world0).
Proof.
  apply (SetBackendHealth_unknown_name "backend9" false lb3 world0).
  intros s Hs.
  change (backends lb3) with
    [mkBackendStatus backend1 true 50; mkBackendStatus backend2 true 50;
     mkBackendStatus backend3 true 50] in Hs.
  rewrite !elem_of_cons, elem_of_nil in Hs.
  destruct Hs as [->|[->|[->|[]]]]; discriminate.
Defined.

(** ** The response-status interceptor *)

Section Interceptor.

Context {W : Type} `{HW : http.ResponseWriter W}.

Lemma apply_calls_snoc (cs : list WriterCall) (c : WriterCall) (w : W) :
  apply_calls (cs ++ [c]) w = apply_call (apply_calls cs w) c.
Proof. unfold apply_calls. by rewrite foldl_snoc. Qed.

Lemma wrapper_apply_calls_snoc (cs : list WriterCall) (c : WriterCall)
    (rw : metrics.ResponseWriter W) :
  apply_calls (cs ++ [c]) rw = apply_call (apply_calls cs rw) c.
Proof. unfold apply_calls. by rewrite foldl_snoc. Qed.

Lemma codes_snoc (cs : list WriterCall) (c : WriterCall) :
  codes (cs ++ [c]) =
  codes cs ++ match c with CallWriteHeader code => [code] | _ => [] end.
Proof. unfold codes. rewrite omap_app. by destruct c. Qed.

End Interceptor.

(** C3, amended.  [metrics.ResponseWriter] hands every call on to the
    writer it embeds, unchanged and in order, and keeps the code of the
    most recent [WriteHeader]: [StatusCode()] is the decimal rendering of
    the last code written, and of 200 when [WriteHeader] was never
    called. *)
Theorem ResponseWriter_records_last_status {W : Type}
    `{HW : http.ResponseWriter W} (cs : list WriterCall) (w : W) :
  metrics.embedded (apply_calls cs (metrics.NewResponseWriter w)) =
    apply_calls cs w ∧
  metrics.StatusCode (apply_calls cs (metrics.NewResponseWriter w)) =
    Itoa (default http.StatusOK (last (codes cs))).
Proof.
  unfold metrics.StatusCode.
  induction cs as [|c cs [IHw IHc]] using rev_ind; [done|].
  rewrite wrapper_apply_calls_snoc, apply_calls_snoc, codes_snoc.
  destruct c as [k v|code|data]; simpl.
  - by rewrite IHw, app_nil_r.
  - by rewrite IHw, last_snoc.
  - by rewrite IHw, app_nil_r.
Qed.

(** C3 as stated fails on two [WriteHeader] calls: the recorder answers
    the client with the first code, 404, and [StatusCode()] is 500. *)
Lemma ResponseWriter_not_first_status :
  let rw := apply_calls [CallWriteHeader 404; CallWriteHeader 500]
              (metrics.NewResponseWriter httptest.NewRecorder) in
  head (codes [CallWriteHeader 404; CallWriteHeader 500]) = Some 404 ∧
  httptest.Code (metrics.embedded rw) = 404 ∧
  metrics.StatusCode rw = "500" ∧
  metrics.StatusCode rw ≠ Itoa 404.
Proof. repeat split. vm_compute. discriminate. Qed.

(** ** The admission gate *)

Section Gate.

Import middleware.

Context {W : Type} `{HW : http.ResponseWriter W}.

Lemma exempt_eqb (r : http.Request) :
  (String.eqb (http.Path (http.RequestURL r)) "/health"
   || String.eqb (http.Path (http.RequestURL r)) "/metrics") = true ↔ exempt r.
Proof.
  unfold exempt. rewrite orb_true_iff. by rewrite !String.eqb_eq.
Qed.

Lemma not_exempt_eqb (r : http.Request) :
  ¬ exempt r →
  (String.eqb (http.Path (http.RequestURL r)) "/health"
   || String.eqb (http.Path (http.RequestURL r)) "/metrics") = false.
Proof.
  intros Hr. destruct (_ || _) eqn:E; [|done]. by apply exempt_eqb in E.
Qed.

(** The response of the gate to a rejected request. *)
Lemma Wrap_rejects (m : RateLimitMiddleware) (next : http.Handler)
    (w : W) (r : http.Request) (σ : World) :
  ¬ exempt r →
  (rate.Allow (limiter m) (now σ)).1 = false →
  RateLimitMiddleware_Wrap m next w r σ =
    (http.Error (http.Header_Set "Retry-After" "60" w)
       "Rate limit exceeded" http.StatusTooManyRequests,
     metrics.RecordRateLimit
       (logger.Warn "Rate limit exceeded for %s %s from %s"
          [VStr (http.Method r); VStr (http.Path (http.RequestURL r));
           VStr (getClientIP r)] σ),
     m).
Proof.
  intros Hr Hno. unfold RateLimitMiddleware_Wrap.
  rewrite not_exempt_eqb by done.
  unfold rate.Allow in *. destruct (rate.token <=? _); [done|].
  simpl. by destruct m.
Qed.

Lemma Wrap_admits (m : RateLimitMiddleware) (next : http.Handler)
    (w : W) (r : http.Request) (σ : World) :
  ¬ exempt r →
  (rate.Allow (limiter m) (now σ)).1 = true →
  RateLimitMiddleware_Wrap m next w r σ =
    (next W HW w r σ,
     mkRateLimitMiddleware (rate.Allow (limiter m) (now σ)).2).
Proof.
  intros Hr Hyes. unfold RateLimitMiddleware_Wrap.
  rewrite not_exempt_eqb by done.
  destruct (rate.Allow (limiter m) (now σ)) as [ok lim].
  simpl in Hyes. by subst ok.
Qed.

End Gate.

Section Bucket.

Lemma Allow_full_bucket (t : Z) :
  rate.Allow (rate.NewLimiter 1 1) t = (true, rate.mkLimiter 1 1 0 t).
Proof.
  unfold rate.Allow.
  assert (rate.advance (rate.NewLimiter 1 1) t = rate.token) as ->.
  { unfold rate.advance, rate.NewLimiter, rate.token. simpl. lia. }
  by rewrite Z.leb_refl, Z.sub_diag.
Qed.

Lemma Allow_empty_bucket (t1 t2 : Z) :
  t2 - t1 < 60 * 1000000000 →
  rate.Allow (rate.mkLimiter 1 1 0 t1) t2 = (false, rate.mkLimiter 1 1 0 t1).
Proof.
  intros Ht. unfold rate.Allow.
  assert (rate.advance (rate.mkLimiter 1 1 0 t1) t2 < rate.token) as Hlt.
  { unfold rate.advance, rate.token. simpl. lia. }
  by rewrite (proj2 (Z.leb_gt _ _)).
Qed.

End Bucket.

(** C6. With a limit of one request per minute and a burst of one, the
    gate passes the first request for a non-exempt path to the inner
    handler and takes the one token of the bucket; a second request for a
    non-exempt path that arrives less than a minute later is answered
    with status 429 and the header Retry-After: 60, the inner handler is
    not run, and the bucket is left as it was. *)
Theorem rate_limit_second_request_rejected {W : Type}
    `{HW : http.ResponseWriter W} (next : http.Handler) (w1 w2 : W)
    (r1 r2 : http.Request) (σ0 σ1 σ2 : World) :
  ¬ exempt r1 → ¬ exempt r2 →
  now σ2 - now σ1 < 60 * 1000000000 →
  let m0 := (middleware.NewRateLimiter 1 1 σ0).1 in
  let m1 := (middleware.RateLimitMiddleware_Wrap m0 next w1 r1 σ1).2 in
  middleware.RateLimitMiddleware_Wrap m0 next w1 r1 σ1 =
    (next W HW w1 r1 σ1, m1) ∧
  rate.tokens (middleware.limiter m0) = 1 * rate.token ∧
  rate.tokens (middleware.limiter m1) = 0 ∧
  middleware.RateLimitMiddleware_Wrap m1 next w2 r2 σ2 =
    (http.Error (http.Header_Set "Retry-After" "60" w2)
       "Rate limit exceeded" http.StatusTooManyRequests,
     metrics.RecordRateLimit
       (logger.Warn "Rate limit exceeded for %s %s from %s"
          [VStr (http.Method r2); VStr (http.Path (http.RequestURL r2));
           VStr (middleware.getClientIP r2)] σ2),
     m1) ∧
  (let rr := (middleware.RateLimitMiddleware_Wrap m1 next
                httptest.NewRecorder r2 σ2).1.1 in
   httptest.Code rr = 429 ∧
   httptest.HeaderMap rr !! "Retry-After" = Some "60").
Proof.
  intros Hr1 Hr2 Ht m0 m1.
  assert (middleware.RateLimitMiddleware_Wrap m0 next w1 r1 σ1 =
          (next W HW w1 r1 σ1,
           middleware.mkRateLimitMiddleware
             (rate.mkLimiter 1 1 0 (now σ1)))) as H1.
  { rewrite Wrap_admits by (done || (simpl; by rewrite Allow_full_bucket)).
    simpl. by rewrite Allow_full_bucket. }
  assert (m1 = middleware.mkRateLimitMiddleware
                 (rate.mkLimiter 1 1 0 (now σ1))) as Hm1.
  { unfold m1. by rewrite H1. }
  rewrite Hm1. split; [exact H1|]. split; [done|]. split; [done|]. split.
  - apply Wrap_rejects; [done|]. simpl. by rewrite Allow_empty_bucket.
  - rewrite Wrap_rejects; [done|done|]. simpl. by rewrite Allow_empty_bucket.
Qed.

Lemma rate_limit_second_request_rejected_witness :
  let r := request "GET" "/test" in
  let m0 := (middleware.NewRateLimiter 1 1 world0).1 in
  let m1 := (middleware.RateLimitMiddleware_Wrap m0 okHandler
               httptest.NewRecorder r world0).2 in
  (¬ exempt r ∧ now world0 - now world0 < 60 * 1000000000) ∧
  httptest.Code (middleware.RateLimitMiddleware_Wrap m0 okHandler
                   httptest.NewRecorder r world0).1.1 = 200 ∧
  rate.tokens (middleware.limiter m1) = 0 ∧
  httptest.Code (middleware.RateLimitMiddleware_Wrap m1 okHandler
                   httptest.NewRecorder r world0).1.1 = 429 ∧
  httptest.HeaderMap (middleware.RateLimitMiddleware_Wrap m1 okHandler
                        httptest.NewRecorder r world0).1.1 !! "Retry-After" =
    Some "60".
Proof.
  intros r m0 m1.
  assert (¬ exempt r) as Hr.
  { intros [H|H]; discriminate H. }
  assert (now world0 - now world0 < 60 * 1000000000) as Ht by (simpl; lia).
  destruct (rate_limit_second_request_rejected okHandler
              httptest.NewRecorder httptest.NewRecorder r r
              world0 world0 world0 Hr Hr Ht)
    as (Hfirst & _ & Htok & _ & Hcode & Hretry).
  split; [done|]. split; [|split; [exact Htok|split; [exact Hcode|exact Hretry]]].
  unfold m0. rewrite Hfirst. reflexivity.
Defined.

(** C8. For a request whose path is /health or /metrics the gate runs
    the inner handler and nothing else: the response and the world are
    the inner handler's, whatever the bucket holds, and the bucket is
    returned as it was given. *)
Theorem exempt_paths_bypass_gate {W : Type} `{HW : http.ResponseWriter W}
    (m : middleware.RateLimitMiddleware) (next : http.Handler) (w : W)
    (r : http.Request) (σ : World) :
  http.Path (http.RequestURL r) = "/health" ∨
  http.Path (http.RequestURL r) = "/metrics" →
  middleware.RateLimitMiddleware_Wrap m next w r σ = (next W HW w r σ, m).
Proof.
  intros Hr. unfold middleware.RateLimitMiddleware_Wrap.
  by rewrite (proj2 (exempt_eqb r) Hr).
Qed.

Lemma exempt_paths_bypass_gate_witness :
  let drained := middleware.mkRateLimitMiddleware (rate.mkLimiter 1 1 0 0) in
  (rate.Allow (middleware.limiter drained) (now world0)).1 = false ∧
  middleware.RateLimitMiddleware_Wrap drained okHandler httptest.NewRecorder
    (request "GET" "/health") world0 =
  (httptest.mkResponseRecorder 200 ∅ "OK" true, world0, drained).
Proof.
  intros drained. split; [reflexivity|].
  rewrite (exempt_paths_bypass_gate drained okHandler httptest.NewRecorder
             (request "GET" "/health") world0 (or_introl eq_refl)).
  reflexivity.
Defined.



(** C10. The metrics middleware runs the inner handler on a status
    interceptor and then records one request outcome, with the request's
    method, the intercepted status, the backend label gateway and the
    elapsed time, unless the path is /metrics: for that path it records
    nothing, and the collectors are those the inner handler left. *)
Theorem metrics_middleware_skips_metrics_path {W : Type}
    `{HW : http.ResponseWriter W} (next : http.Handler) (w : W)
    (r : http.Request) (σ : World) :
  let inner := next (metrics.ResponseWriter W) metrics.wrapper_ResponseWriter
                 (metrics.NewResponseWriter w) r σ in
  (http.Path (http.RequestURL r) = "/metrics" →
   middleware.MetricsMiddleware_Wrap next W HW w r σ =
     (metrics.embedded inner.1, inner.2) ∧
   collectors (middleware.MetricsMiddleware_Wrap next W HW w r σ).2 =
     collectors inner.2) ∧
  (http.Path (http.RequestURL r) ≠ "/metrics" →
   middleware.MetricsMiddleware_Wrap next W HW w r σ =
     (metrics.embedded inner.1,
      metrics.RecordRequest (http.Method r) (metrics.StatusCode inner.1)
        "gateway" (now inner.2 - now σ) inner.2)).
Proof.
  intros inner. unfold middleware.MetricsMiddleware_Wrap. fold inner.
  destruct inner as [rw σ1]. simpl. split.
  - intros ->. done.
  - intros Hne. by rewrite (proj2 (String.eqb_neq _ _) Hne).
Qed.

Lemma metrics_middleware_skips_metrics_path_witness :
  collectors (middleware.MetricsMiddleware_Wrap okHandler
                httptest.ResponseRecorder _ httptest.NewRecorder
                (request "GET" "/metrics") world0).2 = collectors world0 ∧
  requestsTotal
    (collectors (middleware.MetricsMiddleware_Wrap okHandler
                   httptest.ResponseRecorder _ httptest.NewRecorder
                   (request "GET" "/test") world0).2)
    !! ("GET", "200", "gateway") = Some 1%nat.
Proof.
  split.
  - apply (proj1 (metrics_middleware_skips_metrics_path okHandler
                    httptest.NewRecorder (request "GET" "/metrics") world0)
             eq_refl).
  - rewrite (proj2 (metrics_middleware_skips_metrics_path okHandler
                      httptest.NewRecorder (request "GET" "/test") world0)).
    + vm_compute. reflexivity.
    + discriminate.
Defined.

(** * Further properties *)

(** ** The registry *)

Section Registry.

Implicit Types (lb : LoadBalancer) (bs hs : list BackendStatus) (σ : World).

Lemma filter_all {A} (P : A → Prop) `{∀ x, Decision (P x)} (l : list A) :
  (∀ x, x ∈ l → P x) → filter P l = l.
Proof.
  induction l as [|x l IH]; intros Hall; [done|].
  rewrite filter_cons_True by (apply Hall, list_elem_of_here).
  f_equal. apply IH. intros y Hy. by apply Hall, list_elem_of_further.
Qed.

Lemma New_healthy (cfg : list config.Backend) (seed : rand.Rand) σ :
  getHealthyBackendsLocked (New cfg seed σ).1 = backends (New cfg seed σ).1.
Proof.
  unfold getHealthyBackendsLocked. apply filter_all.
  intros s Hs. simpl in Hs. apply list_elem_of_fmap in Hs as (b & -> & _).
  done.
Qed.

End Registry.

(** X1. A load balancer made by [New] from a non-empty list of fewer than
    1000000 backends hands them out in configuration order: as many
    consecutive calls as there are backends return the configured
    backends, first to last. *)
Theorem New_serves_in_configuration_order (cfg : list config.Backend)
    (seed : rand.Rand) (σ σ' : World) :
  cfg ≠ [] → len cfg < 1000000 →
  ∃ lb', calls (length cfg) (New cfg seed σ).1 σ' = Ok (Some <$> cfg, lb', σ').
Proof.
  intros Hne Hlen. set (lb := (New cfg seed σ).1).
  assert (getHealthyBackendsLocked lb = backends lb) as Hhs
    by apply New_healthy.
  assert (Backend <$> backends lb = cfg) as Hcfg.
  { unfold lb. simpl. rewrite <-list_fmap_compose.
    rewrite <-(list_fmap_id cfg) at 2. by apply list_fmap_ext. }
  assert (length (backends lb) = length cfg) as Hl.
  { by rewrite <-Hcfg, length_fmap. }
  destruct (calls_round_robin σ' (length cfg) lb)
    as (picks & lb' & Hcalls & Hplen & Hpicks & _); [done| |done|].
  { rewrite Hhs. intros Hnil. rewrite Hnil in Hl. by destruct cfg. }
  exists lb'. rewrite Hcalls, <-Hcfg.
  assert (picks = backends lb) as ->; [|done].
  apply list_eq. intros i.
  destruct (decide (i < length cfg)%nat) as [Hi|Hi].
  - rewrite Hpicks, Hhs by done. f_equal.
    change (currentIndex lb) with 0. unfold len in *.
    rewrite Z.add_0_l, (Z.mod_small _ 1000000) by lia.
    rewrite Z.mod_small, Nat2Z.id by lia. done.
  - rewrite !lookup_ge_None_2 by lia. done.
Qed.

Lemma New_serves_in_configuration_order_witness :
  ([backend1; backend2; backend3] ≠ [] ∧
   len [backend1; backend2; backend3] < 1000000) ∧
  ∃ lb', calls 3 lb3 world0 =
         Ok ([Some backend1; Some backend2; Some backend3], lb', world0).
Proof.
  assert ([backend1; backend2; backend3] ≠ []) as H1 by discriminate.
  assert (len [backend1; backend2; backend3] < 1000000) as H2 by reflexivity.
  split; [done|].
  exact (New_serves_in_configuration_order [backend1; backend2; backend3]
           zeros world0 world0 H1 H2).
Defined.

Section HealthFrame.

Implicit Types (lb : LoadBalancer) (bs hs : list BackendStatus) (σ : World).

Lemma SetBackendHealth_loop_frame name healthy bs σ bs' σ' :
  SetBackendHealth_loop name healthy bs σ = Some (bs', σ') →
  Backend <$> bs' = Backend <$> bs ∧ Weight <$> bs' = Weight <$> bs.
Proof.
  revert bs' σ'. induction bs as [|b bs IH]; intros bs' σ'; simpl; [done|].
  destruct (String.eqb (config.Name (Backend b)) name).
  - by destruct (negb _); intros [= <- _].
  - destruct (SetBackendHealth_loop name healthy bs σ) as [[bs1 σ1]|];
      [|done].
    intros [= <- _]. destruct (IH bs1 σ1 eq_refl) as [H1 H2].
    by rewrite !fmap_cons, H1, H2.
Qed.

Lemma SetBackendHealth_loop_twice name healthy bs σ bs' σ' σ2 :
  SetBackendHealth_loop name healthy bs σ = Some (bs', σ') →
  SetBackendHealth_loop name healthy bs' σ2 = Some (bs', σ2).
Proof.
  revert bs' σ'. induction bs as [|b bs IH]; intros bs' σ'; simpl; [done|].
  destruct (String.eqb (config.Name (Backend b)) name) eqn:Hb.
  - destruct (negb (Bool.eqb (Healthy b) healthy)) eqn:Hh;
      intros [= <- _]; simpl; rewrite Hb.
    + by rewrite Bool.eqb_reflx.
    + by rewrite Hh.
  - destruct (SetBackendHealth_loop name healthy bs σ) as [[bs1 σ1]|];
      [|done].
    intros [= <- _]. simpl. rewrite Hb. by rewrite (IH bs1 σ1 eq_refl).
Qed.

Lemma SetBackendHealth_loop_mark_down name bs σ bs' σ' :
  NoDup (config.Name ∘ Backend <$> bs) →
  SetBackendHealth_loop name false bs σ = Some (bs', σ') →
  filter (λ s, Healthy s = true) bs' =
  filter (λ s, config.Name (Backend s) ≠ name)
    (filter (λ s, Healthy s = true) bs).
Proof.
  revert bs' σ'. induction bs as [|b bs IH]; intros bs' σ'; simpl; [done|].
  rewrite NoDup_cons. intros [Hb' Hnd].
  destruct (String.eqb_spec (config.Name (Backend b)) name) as [Hb|Hb].
  - assert (filter (λ s, config.Name (Backend s) ≠ name)
              (filter (λ s, Healthy s = true) bs) =
            filter (λ s, Healthy s = true) bs) as Hrest.
    { apply filter_all. intros s [_ Hs]%list_elem_of_filter Hname.
      apply Hb'. apply list_elem_of_fmap. exists s.
      split; [simpl; congruence|done]. }
    destruct (Healthy b) eqn:Hh; simpl; intros [= <- _].
    + rewrite filter_cons_False by done.
      rewrite (filter_cons_True _ b) by done.
      rewrite filter_cons_False by (intros H; by apply H). done.
    + rewrite filter_cons_False by congruence. done.
  - destruct (SetBackendHealth_loop name false bs σ) as [[bs1 σ1]|]; [|done].
    intros [= <- _]. specialize (IH bs1 σ1 Hnd eq_refl).
    destruct (Healthy b) eqn:Hh.
    + rewrite !(filter_cons_True _ b) by done. by rewrite IH.
    + rewrite !(filter_cons_False _ b) by congruence. done.
Qed.

End HealthFrame.

(** X2. [SetBackendHealth] changes nothing but health flags: the
    descriptors and the weights of the registry, in order, the cursor,
    the generator and the algorithm are as before, whatever the name. *)
Theorem SetBackendHealth_changes_only_health (name : string) (healthy : bool)
    (lb : LoadBalancer) (σ : World) :
  let lb' := (SetBackendHealth name healthy lb σ).1 in
  Backend <$> backends lb' = Backend <$> backends lb ∧
  Weight <$> backends lb' = Weight <$> backends lb ∧
  currentIndex lb' = currentIndex lb ∧
  randomSource lb' = randomSource lb ∧
  algorithm lb' = algorithm lb.
Proof.
  unfold SetBackendHealth.
  destruct (SetBackendHealth_loop name healthy (backends lb) σ)
    as [[bs' σ']|] eqn:E; simpl; [|done].
  by destruct (SetBackendHealth_loop_frame _ _ _ _ _ _ E) as [-> ->].
Qed.

(** X3. [SetBackendHealth] is idempotent on a name the registry holds:
    repeating the call with the same value changes neither the load
    balancer nor the world, so it logs nothing. *)
Theorem SetBackendHealth_idempotent (name : string) (healthy : bool)
    (lb : LoadBalancer) (σ σ' : World) :
  (∃ s, s ∈ backends lb ∧ config.Name (Backend s) = name) →
  SetBackendHealth name healthy (SetBackendHealth name healthy lb σ).1 σ' =
    ((SetBackendHealth name healthy lb σ).1, σ').
Proof.
  intros (s & Hs & Hname). unfold SetBackendHealth at 2 3.
  destruct (SetBackendHealth_loop name healthy (backends lb) σ)
    as [[bs' σ1]|] eqn:E; simpl.
  - unfold SetBackendHealth. simpl.
    by rewrite (SetBackendHealth_loop_twice _ _ _ _ _ _ σ' E).
  - by destruct (proj1 (SetBackendHealth_loop_None _ _ _ _) E s).
Qed.

Lemma SetBackendHealth_idempotent_witness :
  (∃ s, s ∈ backends lb3 ∧ config.Name (Backend s) = "backend2") ∧
  SetBackendHealth "backend2" false
    (SetBackendHealth "backend2" false lb3 world0).1 world0 =
  ((SetBackendHealth "backend2" false lb3 world0).1, world0).
Proof.
  assert (∃ s, s ∈ backends lb3 ∧ config.Name (Backend s) = "backend2") as H.
  { exists (mkBackendStatus backend2 true 50). split; [|done].
    apply list_elem_of_further, list_elem_of_here. }
  split; [exact H|].
  exact (SetBackendHealth_idempotent "backend2" false lb3 world0 world0 H).
Defined.

(** X4. On a registry with pairwise distinct names, marking a backend
    unhealthy removes exactly the entries of that name from the healthy
    snapshot and keeps the others in their order. *)
Theorem SetBackendHealth_false_snapshot (name : string) (lb : LoadBalancer)
    (σ : World) :
  NoDup (config.Name ∘ Backend <$> backends lb) →
  getHealthyBackendsLocked (SetBackendHealth name false lb σ).1 =
  filter (λ s, config.Name (Backend s) ≠ name) (getHealthyBackendsLocked lb).
Proof.
  intros Hnd. unfold SetBackendHealth, getHealthyBackendsLocked.
  destruct (SetBackendHealth_loop name false (backends lb) σ)
    as [[bs' σ']|] eqn:E; simpl.
  - by eapply SetBackendHealth_loop_mark_down.
  - symmetry. apply filter_all. intros s [_ Hs]%list_elem_of_filter.
    by apply (proj1 (SetBackendHealth_loop_None _ _ _ _) E).
Qed.

Lemma SetBackendHealth_false_snapshot_witness :
  NoDup (config.Name ∘ Backend <$> backends lb3) ∧
  getHealthyBackendsLocked (SetBackendHealth "backend2" false lb3 world0).1 =
  [mkBackendStatus backend1 true 50; mkBackendStatus backend3 true 50].
Proof.
  assert (NoDup (config.Name ∘ Backend <$> backends lb3)) as Hnd
    by compute_done.
  split; [exact Hnd|].
  rewrite (SetBackendHealth_false_snapshot "backend2" lb3 world0 Hnd).
  reflexivity.
Defined.

(** ** The algorithms *)

Section Algorithms.

Implicit Types (lb : LoadBalancer) (bs hs : list BackendStatus) (σ : World).

Lemma validAlgorithms_lookup (a : string) :
  default false (validAlgorithms !! a) =
  bool_decide (a ∈ ["round_robin"; "weighted_round_robin"; "random";
                    "least_connections"]).
Proof.
  destruct (decide (a = "round_robin")) as [->|H1]; [done|].
  destruct (decide (a = "weighted_round_robin")) as [->|H2]; [done|].
  destruct (decide (a = "random")) as [->|H3]; [done|].
  destruct (decide (a = "least_connections")) as [->|H4]; [done|].
  unfold validAlgorithms.
  rewrite !lookup_insert_ne, lookup_singleton_ne by done.
  symmetry. apply bool_decide_eq_false_2.
  rewrite !elem_of_cons, elem_of_nil. tauto.
Qed.

Lemma roundRobin_algorithm lb hs o lb' :
  roundRobin lb hs = Ok (o, lb') → algorithm lb' = algorithm lb.
Proof.
  unfold roundRobin. destruct (len hs =? 0); [by intros [= _ <-]|].
  destruct (index hs _); simpl; [|done].
  intros [= _ <-]. by destruct (1000000 <=? _).
Qed.

Lemma weightedRoundRobin_algorithm lb hs o lb' :
  weightedRoundRobin lb hs = Ok (o, lb') → algorithm lb' = algorithm lb.
Proof.
  unfold weightedRoundRobin. destruct (len hs =? 0); [by intros [= _ <-]|].
  destruct (totalWeight hs =? 0); [apply roundRobin_algorithm|].
  destruct (rand.Intn _ _) as [[r src]|]; simpl; [|done].
  destruct (accumulate r 0 hs); [by intros [= _ <-]|].
  destruct (index hs 0); simpl; [|done]. by intros [= _ <-].
Qed.

Lemma randomBackend_algorithm lb hs o lb' :
  randomBackend lb hs = Ok (o, lb') → algorithm lb' = algorithm lb.
Proof.
  unfold randomBackend. destruct (len hs =? 0); [by intros [= _ <-]|].
  destruct (rand.Intn _ _) as [[i src]|]; simpl; [|done].
  destruct (index hs i); simpl; [|done]. by intros [= _ <-].
Qed.

Lemma NextBackend_algorithm lb σ o lb' σ' :
  NextBackend lb σ = Ok (o, lb', σ') → algorithm lb' = algorithm lb.
Proof.
  unfold NextBackend. destruct (len _ =? 0); [by intros [= _ <- _]|].
  set (hs := getHealthyBackendsLocked lb).
  assert (∀ r : Result (option config.Backend * LoadBalancer),
    (∀ o1 lb1, r = Ok (o1, lb1) → algorithm lb1 = algorithm lb) →
    ('(backend, lb0) ← r; Ok (backend, lb0, σ)) = Ok (o, lb', σ') →
    algorithm lb' = algorithm lb) as Hstep.
  { intros [[o1 lb1]|] Hr; simpl; [|done]. intros [= _ <- _]. eauto. }
  repeat case_match; apply Hstep; intros o1 lb1;
    eauto using roundRobin_algorithm, weightedRoundRobin_algorithm,
      randomBackend_algorithm.
Qed.

Lemma NextBackend_some_world lb σ b lb' σ' :
  NextBackend lb σ = Ok (Some b, lb', σ') → σ' = σ.
Proof.
  unfold NextBackend. destruct (len _ =? 0); [done|].
  destruct (if String.eqb _ _ then _ else _) as [[o lb1]|]; simpl; [|done].
  by intros [= _ _ <-].
Qed.

Lemma int_wrap_range (z : Z) : - 2 ^ 63 ≤ int_wrap z < 2 ^ 63.
Proof.
  unfold int_wrap, int_bits. change (2 ^ (64 - 1)) with (2 ^ 63).
  pose proof (Z.mod_pos_bound (z + 2 ^ 63) (2 ^ 64)) as H.
  change (2 ^ 64) with (2 * 2 ^ 63) in *. lia.
Qed.

(** The accumulation loop never returns at an entry of weight zero. *)
Lemma accumulate_nonzero hs : ∀ c r s,
  - 2 ^ 63 ≤ c < 2 ^ 63 → c ≤ r →
  accumulate r c hs = Some s → Weight s ≠ 0.
Proof.
  induction hs as [|b hs IH]; intros c r s Hc Hr; simpl; [done|].
  destruct (r <? int_add c (Weight b)) eqn:E.
  - intros [= <-] Hzero. apply Z.ltb_lt in E.
    unfold int_add in E. rewrite Hzero, Z.add_0_r, int_wrap_small in E; lia.
  - apply Z.ltb_ge in E. apply IH; [apply int_wrap_range|done].
Qed.

End Algorithms.

(** X5. [SetAlgorithm] leaves the load balancer with one of the four
    algorithm names: the name it was given when that is one of the four,
    round_robin otherwise; the registry and the cursor are untouched. *)
Theorem SetAlgorithm_normalises (a : string) (lb : LoadBalancer) (σ : World) :
  let valid := ["round_robin"; "weighted_round_robin"; "random";
                "least_connections"] in
  let lb' := (SetAlgorithm a lb σ).1 in
  algorithm lb' ∈ valid ∧
  algorithm lb' = (if bool_decide (a ∈ valid) then a else "round_robin") ∧
  backends lb' = backends lb ∧ currentIndex lb' = currentIndex lb.
Proof.
  intros valid lb'. unfold lb', SetAlgorithm.
  rewrite validAlgorithms_lookup. fold valid.
  destruct (bool_decide (a ∈ valid)) eqn:E; simpl.
  - apply bool_decide_eq_true in E. done.
  - repeat split. apply list_elem_of_here.
Qed.

(** X6. [NextBackend] never changes the registry or the algorithm.  When
    it returns a backend, that backend is the descriptor of an entry that
    is healthy, and nothing is logged; when it returns nil, the load
    balancer is as before and one warning is logged. *)
Theorem NextBackend_frame (lb : LoadBalancer) (σ : World)
    (o : option config.Backend) (lb' : LoadBalancer) (σ' : World) :
  NextBackend lb σ = Ok (o, lb', σ') →
  backends lb' = backends lb ∧ algorithm lb' = algorithm lb ∧
  match o with
  | Some b =>
      σ' = σ ∧ ∃ s, s ∈ backends lb ∧ Healthy s = true ∧ Backend s = b
  | None =>
      lb' = lb ∧ σ' = logger.Warn "No healthy backends available" [] σ
  end.
Proof.
  intros Hcall. split; [by eapply NextBackend_backends|].
  split; [by eapply NextBackend_algorithm|].
  destruct o as [b|].
  - split; [by eapply NextBackend_some_world|by eapply NextBackend_elem_of].
  - destruct (getHealthyBackendsLocked lb) as [|s hs] eqn:E.
    + rewrite NextBackend_no_healthy in Hcall by done. by injection Hcall.
    + exfalso. eapply (NextBackend_not_nil lb σ lb' σ'); [|done].
      by rewrite E.
Qed.

Lemma NextBackend_frame_witness :
  ∃ lb', NextBackend lb3 world0 = Ok (Some backend1, lb', world0) ∧
         backends lb' = backends lb3 ∧ algorithm lb' = algorithm lb3.
Proof.
  assert (NextBackend lb3 world0 =
          Ok (Some backend1, set_currentIndex 1 lb3, world0)) as H
    by (vm_compute; reflexivity).
  exists (set_currentIndex 1 lb3). split; [exact H|].
  destruct (NextBackend_frame _ _ _ _ _ H) as (Hb & Ha & _). done.
Defined.

Section Cursor.

Implicit Types (lb : LoadBalancer) (σ : World).

Lemma SetBackendHealth_cursor name h lb σ :
  currentIndex (SetBackendHealth name h lb σ).1 = currentIndex lb.
Proof.
  unfold SetBackendHealth.
  by destruct (SetBackendHealth_loop name h (backends lb) σ) as [[??]|].
Qed.

Lemma SetAlgorithm_cursor a lb σ :
  currentIndex (SetAlgorithm a lb σ).1 = currentIndex lb.
Proof. unfold SetAlgorithm. by destruct (negb _). Qed.

Lemma run_cursor cs : ∀ lb σ outs lb' σ',
  0 ≤ currentIndex lb < 1000000 →
  run cs lb σ = Ok (outs, lb', σ') →
  0 ≤ currentIndex lb' < 1000000.
Proof.
  induction cs as [|c cs IH]; intros lb σ outs lb' σ' Hc; simpl.
  { by intros [= _ <- _]. }
  destruct c as [|n h|a].
  - destruct (NextBackend lb σ) as [[[o lb1] σ1]|] eqn:E; simpl; [|done].
    destruct (run cs lb1 σ1) as [[[rest lb2] σ2]|] eqn:Er; simpl; [|done].
    intros [= _ <- _]. eapply IH; [|exact Er].
    by eapply NextBackend_cursor.
  - destruct (SetBackendHealth n h lb σ) as [lb1 σ1] eqn:E.
    apply IH. change lb1 with (lb1, σ1).1.
    by rewrite <-E, SetBackendHealth_cursor.
  - destruct (SetAlgorithm a lb σ) as [lb1 σ1] eqn:E.
    apply IH. change lb1 with (lb1, σ1).1.
    by rewrite <-E, SetAlgorithm_cursor.
Qed.

End Cursor.

(** X7. The cursor of a load balancer made by [New] stays within
    [0, 1000000) whatever calls are made on it. *)
Theorem cursor_stays_in_range (cfg : list config.Backend) (seed : rand.Rand)
    (σ σ0 : World) (cs : list Call) (outs : list (option config.Backend))
    (lb' : LoadBalancer) (σ' : World) :
  run cs (New cfg seed σ).1 σ0 = Ok (outs, lb', σ') →
  0 ≤ currentIndex lb' < 1000000.
Proof. apply run_cursor. simpl. lia. Qed.

Lemma cursor_stays_in_range_witness :
  ∃ outs lb' σ',
    run [CallNextBackend; CallSetBackendHealth "backend1" false;
         CallNextBackend] lb3 world0 = Ok (outs, lb', σ') ∧
    0 ≤ currentIndex lb' < 1000000.
Proof.
  evar (outs : list (option config.Backend)).
  evar (lb' : LoadBalancer). evar (σ' : World).
  assert (run [CallNextBackend; CallSetBackendHealth "backend1" false;
               CallNextBackend] lb3 world0 = Ok (outs, lb', σ')) as Hrun.
  { subst outs lb' σ'. vm_compute. reflexivity. }
  exists outs, lb', σ'. split; [exact Hrun|].
  exact (cursor_stays_in_range [backend1; backend2; backend3] zeros world0
           world0 _ outs lb' σ' Hrun).
Defined.

(** X8. least_connections selects as round_robin does: a call under it
    returns what the call under round_robin returns and moves the cursor
    the same way. *)
Theorem least_connections_is_round_robin (lb : LoadBalancer) (σ : World) :
  algorithm lb = "least_connections" →
  NextBackend lb σ =
    '(o, lb', σ') ← NextBackend (set_algorithm "round_robin" lb) σ;
    Ok (o, set_algorithm "least_connections" lb', σ').
Proof.
  destruct lb as [bs c src alg]. simpl. intros ->.
  unfold NextBackend, getHealthyBackendsLocked. simpl.
  destruct (len _ =? 0) eqn:E; [done|].
  unfold roundRobin. rewrite E. simpl.
  destruct (index _ _); simpl; [|done].
  by destruct (1000000 <=? int_add c 1).
Qed.

Lemma least_connections_is_round_robin_witness :
  let lb := (SetAlgorithm "least_connections" lb3 world0).1 in
  NextBackend lb world0 = Ok (Some backend1, set_currentIndex 1 lb, world0).
Proof.
  intros lb.
  rewrite (least_connections_is_round_robin lb world0 eq_refl).
  reflexivity.
Defined.

(** X9. Under the random algorithm a call on a non-empty snapshot returns
    the entry at the drawn index, consumes one value of the generator and
    leaves the cursor alone; it does not panic. *)
Theorem random_returns_drawn_entry (lb : LoadBalancer) (σ : World) :
  algorithm lb = "random" →
  getHealthyBackendsLocked lb ≠ [] →
  let hs := getHealthyBackendsLocked lb in
  let src := randomSource lb in
  ∃ s, hs !! Z.to_nat (rand.raws src (rand.consumed src) `mod` len hs)
         = Some s ∧
       NextBackend lb σ =
         Ok (Some (Backend s),
             set_randomSource
               (rand.mkRand (rand.raws src) (S (rand.consumed src))) lb,
             σ).
Proof.
  intros Ha Hne hs src. pose proof (len_pos hs Hne) as Hlen.
  destruct (index_Ok hs (rand.raws src (rand.consumed src) `mod` len hs))
    as (s & Hidx & Hs); [by apply Z.mod_pos_bound|].
  exists s. split; [done|].
  unfold NextBackend. fold hs. rewrite len_cons_false, Ha by done. simpl.
  unfold randomBackend, rand.Intn. rewrite len_cons_false by done.
  rewrite (proj2 (Z.leb_gt _ _)) by lia. simpl. fold src.
  by rewrite Hidx.
Qed.

Lemma random_returns_drawn_entry_witness :
  let lb := set_randomSource (rand.mkRand (λ n, 7 + Z.of_nat n) 0)
              (SetAlgorithm "random" lb3 world0).1 in
  (algorithm lb = "random" ∧ getHealthyBackendsLocked lb ≠ []) ∧
  ∃ lb', NextBackend lb world0 = Ok (Some backend2, lb', world0).
Proof.
  intros lb.
  assert (algorithm lb = "random") as H1 by reflexivity.
  assert (getHealthyBackendsLocked lb ≠ []) as H2 by (vm_compute; discriminate).
  split; [done|].
  destruct (random_returns_drawn_entry lb world0 H1 H2) as (s & Hs & Hcall).
  vm_compute in Hs. injection Hs as <-.
  eexists. exact Hcall.
Defined.

(** X10. Under weighted_round_robin a healthy snapshot whose total weight
    is negative makes [NextBackend] panic in [rand.Intn]: weights are
    read from the configuration unchecked. *)
Theorem weighted_negative_total_panics (lb : LoadBalancer) (σ : World) :
  algorithm lb = "weighted_round_robin" →
  getHealthyBackendsLocked lb ≠ [] →
  totalWeight (getHealthyBackendsLocked lb) < 0 →
  NextBackend lb σ = Panic "invalid argument to Intn".
Proof.
  intros Ha Hne Hneg. unfold NextBackend.
  rewrite len_cons_false, Ha by done. simpl.
  unfold weightedRoundRobin, rand.Intn. rewrite len_cons_false by done.
  rewrite (proj2 (Z.eqb_neq _ _)) by lia.
  by rewrite (proj2 (Z.leb_le _ _)) by lia.
Qed.

Lemma weighted_negative_total_panics_witness :
  let lb := (SetAlgorithm "weighted_round_robin"
               (New [config.mkBackend "a" "http://localhost:1" (-5) ""]
                  zeros world0).1 world0).1 in
  (algorithm lb = "weighted_round_robin" ∧
   getHealthyBackendsLocked lb ≠ [] ∧
   totalWeight (getHealthyBackendsLocked lb) < 0) ∧
  NextBackend lb world0 = Panic "invalid argument to Intn".
Proof.
  intros lb.
  assert (algorithm lb = "weighted_round_robin") as H1 by reflexivity.
  assert (getHealthyBackendsLocked lb ≠ []) as H2 by (vm_compute; discriminate).
  assert (totalWeight (getHealthyBackendsLocked lb) < 0) as H3
    by (vm_compute; reflexivity).
  split; [done|].
  exact (weighted_negative_total_panics lb world0 H1 H2 H3).
Defined.

(** X11. With a positive total weight, [weightedRoundRobin] never returns
    an entry whose weight is zero. *)
Theorem weighted_skips_zero_weight (lb : LoadBalancer)
    (hs : list BackendStatus) (b : config.Backend) (lb' : LoadBalancer) :
  0 < totalWeight hs →
  weightedRoundRobin lb hs = Ok (Some b, lb') →
  ∃ s, s ∈ hs ∧ Backend s = b ∧ Weight s ≠ 0.
Proof.
  intros Hpos. unfold weightedRoundRobin.
  destruct (len hs =? 0); [done|].
  rewrite (proj2 (Z.eqb_neq _ _)) by lia.
  unfold rand.Intn. rewrite (proj2 (Z.leb_gt _ _)) by lia. simpl.
  set (r := _ `mod` totalWeight hs).
  assert (0 ≤ r < totalWeight hs) as Hr by (by apply Z.mod_pos_bound).
  destruct (accumulate_slice hs 0 r Hr) as (pre & s & post & _ & Hacc & _).
  rewrite Hacc. intros [= <- _]. exists s.
  split; [by eapply accumulate_elem_of|]. split; [done|].
  eapply (accumulate_nonzero hs 0 r); [lia|lia|done].
Qed.

Lemma weighted_skips_zero_weight_witness :
  let hs := [mkBackendStatus backend1 true 0; mkBackendStatus backend2 true 4] in
  0 < totalWeight hs ∧
  ∃ s, s ∈ hs ∧ Backend s = backend2 ∧ Weight s ≠ 0.
Proof.
  intros hs.
  assert (0 < totalWeight hs) as Hpos by reflexivity.
  split; [done|].
  eapply (weighted_skips_zero_weight lb3_weighted hs backend2 _ Hpos).
  vm_compute. reflexivity.
Defined.

Section StatsFacts.

Lemma length_filter_fmap {A B} (f : A → B) (P : B → Prop)
    `{∀ y, Decision (P y)} (l : list A) :
  length (filter P (f <$> l)) = length (filter (λ x, P (f x)) l).
Proof.
  induction l as [|x l IH]; [done|]. rewrite fmap_cons.
  destruct (decide (P (f x))).
  - rewrite !filter_cons_True by done. simpl. by rewrite IH.
  - rewrite !filter_cons_False by done. done.
Qed.

End StatsFacts.

(** X12. The statistics are consistent: the total is the number of healthy
    plus the number of unhealthy backends, neither is negative, there is
    one list element per registry entry, in order, and the healthy count
    is the number of list elements flagged healthy. *)
Theorem GetStats_consistent (lb : LoadBalancer) :
  let st := GetStats lb in
  total_backends st = healthy_backends st + unhealthy_backends st ∧
  0 ≤ healthy_backends st ∧ 0 ≤ unhealthy_backends st ∧
  len (stats_backends st) = total_backends st ∧
  stat_name <$> stats_backends st = config.Name ∘ Backend <$> backends lb ∧
  healthy_backends st =
    len (filter (λ e, stat_healthy e = true) (stats_backends st)).
Proof.
  unfold GetStats, len. simpl.
  pose proof (length_filter (λ s, Healthy s = true) (backends lb)) as Hle.
  unfold getHealthyBackendsLocked.
  repeat split; try lia.
  - by rewrite length_fmap.
  - by rewrite <-list_fmap_compose.
  - by rewrite length_filter_fmap.
Qed.

(** ** Helpers of package middleware *)

Section Helpers.

Import middleware.

Lemma string_app_assoc (a b c : string) : (a +:+ b) +:+ c = a +:+ (b +:+ c).
Proof.
  induction a as [|x a IH]; [done|].
  change (String x ((a +:+ b) +:+ c) = String x (a +:+ (b +:+ c))).
  by rewrite IH.
Qed.

Lemma joinStrings_foldl (sep pre acc : string) (l : list string) :
  foldl (λ result s, result +:+ (sep +:+ s)) (pre +:+ acc) l =
  pre +:+ foldl (λ result s, result +:+ (sep +:+ s)) acc l.
Proof.
  revert acc. induction l as [|x l IH]; intros acc; cbn [foldl]; [done|].
  by rewrite string_app_assoc, IH.
Qed.

Lemma contains_elem_of (slice : list string) (item : string) :
  contains slice item = true ↔ item ∈ slice.
Proof.
  induction slice as [|s slice IH]; simpl.
  - split; [done|]. by intros ?%elem_of_nil.
  - rewrite elem_of_cons. destruct (String.eqb_spec s item) as [->|Hne].
    + split; [by left|done].
    + rewrite IH. split; [by right|]. by intros [->|?].
Qed.

End Helpers.

(** X13. [joinStrings] puts the separator between consecutive elements
    and nowhere else: the empty slice gives the empty string, one element
    gives that element, and a longer slice gives the first element, the
    separator and the join of the rest. *)
Theorem joinStrings_spec (sep x y : string) (rest : list string) :
  middleware.joinStrings [] sep = EmptyString ∧
  middleware.joinStrings [x] sep = x ∧
  middleware.joinStrings (x :: y :: rest) sep =
    x +:+ sep +:+ middleware.joinStrings (y :: rest) sep.
Proof.
  repeat split. unfold middleware.joinStrings. simpl.
  by rewrite joinStrings_foldl, joinStrings_foldl.
Qed.

(** X14. [contains] decides membership in the slice. *)
Theorem contains_iff (slice : list string) (item : string) :
  middleware.contains slice item = true ↔ item ∈ slice.
Proof. apply contains_elem_of. Qed.

(** X15. The client address is the X-Forwarded-For header when it is set
    and not empty, else the X-Real-IP header when it is set and not
    empty, else the remote address; it is empty only if all three are. *)
Theorem getClientIP_precedence (r : http.Request) :
  let xff := middleware.Header_Get r "X-Forwarded-For" in
  let xri := middleware.Header_Get r "X-Real-IP" in
  (xff ≠ EmptyString → middleware.getClientIP r = xff) ∧
  (xff = EmptyString → xri ≠ EmptyString → middleware.getClientIP r = xri) ∧
  (xff = EmptyString → xri = EmptyString →
   middleware.getClientIP r = http.RemoteAddr r) ∧
  (middleware.getClientIP r = EmptyString →
   xff = EmptyString ∧ xri = EmptyString ∧ http.RemoteAddr r = EmptyString).
Proof.
  intros xff xri. unfold middleware.getClientIP. fold xff xri.
  destruct (String.eqb_spec xff EmptyString) as [Hf|Hf];
    destruct (String.eqb_spec xri EmptyString) as [Hi|Hi]; simpl;
    repeat split; try done.
Qed.

Lemma getClientIP_precedence_witness :
  let r := http.mkRequest "GET" (http.mkURL "/test")
             {[ "X-Forwarded-For" := "192.168.1.100";
                "X-Real-IP" := "192.168.1.200" ]} "10.0.0.1:12345" in
  middleware.getClientIP r = "192.168.1.100" ∧
  middleware.getClientIP (request "GET" "/test") = "10.0.0.1:12345".
Proof.
  intros r. split.
  - rewrite (proj1 (getClientIP_precedence r)); [reflexivity|discriminate].
  - by rewrite (proj1 (proj2 (proj2 (getClientIP_precedence
                                       (request "GET" "/test"))))).
Defined.

(** ** The CORS middleware *)

(** X16. A preflight request (method OPTIONS) is answered by the CORS
    middleware itself: status 200, empty body, the world untouched; the
    inner handler is not run, whatever it is. *)
Theorem CORS_preflight_short_circuits (m : middleware.CORSMiddleware)
    (next : http.Handler) (r : http.Request) (σ : World) :
  http.Method r = "OPTIONS" →
  let res := middleware.CORSMiddleware_Wrap m next httptest.ResponseRecorder _
               httptest.NewRecorder r σ in
  res.2 = σ ∧ httptest.Code res.1 = 200 ∧
  httptest.Body res.1 = EmptyString ∧ httptest.wroteHeader res.1 = true.
Proof.
  intros Hm. unfold middleware.CORSMiddleware_Wrap. rewrite Hm. simpl.
  destruct (_ && middleware.contains _ (middleware.Header_Get r "Origin"));
    [|destruct (_ && middleware.contains _ "*")];
    destruct (0 <? len (middleware.allowedMethods m));
    destruct (0 <? len (middleware.allowedHeaders m)); done.
Qed.

Lemma CORS_preflight_short_circuits_witness :
  let m := middleware.NewCORS ["*"] ["GET"; "POST"] ["Content-Type"] in
  let res := middleware.CORSMiddleware_Wrap m okHandler
               httptest.ResponseRecorder _ httptest.NewRecorder
               (request "OPTIONS" "/test") world0 in
  http.Method (request "OPTIONS" "/test") = "OPTIONS" ∧
  res.2 = world0 ∧ httptest.Code res.1 = 200 ∧
  httptest.Body res.1 = EmptyString ∧ httptest.wroteHeader res.1 = true.
Proof.
  intros m res. split; [reflexivity|].
  exact (CORS_preflight_short_circuits m okHandler
           (request "OPTIONS" "/test") world0 eq_refl).
Defined.

(** X17. The Access-Control-Allow-Origin header of a preflight response
    is the request's origin when the origin is in the allowed list, the
    wildcard when it is not but the wildcard is, and absent otherwise. *)
Theorem CORS_allow_origin (m : middleware.CORSMiddleware)
    (next : http.Handler) (r : http.Request) (σ : World) :
  http.Method r = "OPTIONS" →
  let origin := middleware.Header_Get r "Origin" in
  let res := middleware.CORSMiddleware_Wrap m next httptest.ResponseRecorder _
               httptest.NewRecorder r σ in
  httptest.HeaderMap res.1 !! "Access-Control-Allow-Origin" =
    if bool_decide (origin ∈ middleware.allowedOrigins m) then Some origin
    else if bool_decide ("*" ∈ middleware.allowedOrigins m) then Some "*"
    else None.
Proof.
  intros Hm origin. unfold middleware.CORSMiddleware_Wrap. rewrite Hm.
  fold origin. cbv zeta. simpl.
  assert (∀ x, ((0 <? len (middleware.allowedOrigins m))
                && middleware.contains (middleware.allowedOrigins m) x) =
               bool_decide (x ∈ middleware.allowedOrigins m)) as Hguard.
  { intros x. destruct (middleware.contains _ x) eqn:E.
    - apply contains_elem_of in E as E'. rewrite bool_decide_eq_true_2 by done.
      rewrite andb_true_r. apply Z.ltb_lt. apply len_pos.
      intros Hnil. rewrite Hnil in E'. by apply elem_of_nil in E'.
    - rewrite andb_false_r. symmetry. apply bool_decide_eq_false_2.
      intros Hin. apply contains_elem_of in Hin. congruence. }
  rewrite !Hguard.
  destruct (bool_decide (origin ∈ _)); [|destruct (bool_decide ("*" ∈ _))];
    destruct (0 <? len (middleware.allowedMethods m));
    destruct (0 <? len (middleware.allowedHeaders m)); simpl;
    unfold httptest.recorder_WriteHeader, httptest.recorder_Header_Set; simpl;
    rewrite ?lookup_insert_ne by done;
    by rewrite ?lookup_insert_eq, ?lookup_empty.
Qed.

Lemma CORS_allow_origin_witness :
  let m := middleware.NewCORS ["https://example.com"; "https://test.com"]
             ["GET"] [] in
  let r := http.mkRequest "OPTIONS" (http.mkURL "/test")
             {[ "Origin" := "https://example.com" ]} "10.0.0.1:12345" in
  httptest.HeaderMap
    (middleware.CORSMiddleware_Wrap m okHandler httptest.ResponseRecorder _
       httptest.NewRecorder r world0).1 !! "Access-Control-Allow-Origin" =
  Some "https://example.com".
Proof.
  intros m r. rewrite (CORS_allow_origin m okHandler r world0 eq_refl).
  reflexivity.
Defined.

(** ** The gate and the metrics middleware together *)

(** X18. Whenever the limiter refuses a request for a non-exempt path,
    whatever its state, the gate answers 429 with Retry-After: 60 and the
    plain-text message, counts one rate-limited request, leaves the
    request counters and the limiter as they were, and does not run the
    inner handler. *)
Theorem gate_rejection_response (m : middleware.RateLimitMiddleware)
    (next : http.Handler) (r : http.Request) (σ : World) :
  ¬ exempt r →
  (rate.Allow (middleware.limiter m) (now σ)).1 = false →
  let res := middleware.RateLimitMiddleware_Wrap m next
               httptest.NewRecorder r σ in
  httptest.Code res.1.1 = 429 ∧
  httptest.Body res.1.1 = "Rate limit exceeded" +:+ String "010" EmptyString ∧
  httptest.HeaderMap res.1.1 !! "Retry-After" = Some "60" ∧
  httptest.HeaderMap res.1.1 !! "Content-Type" =
    Some "text/plain; charset=utf-8" ∧
  res.2 = m ∧
  rateLimitedRequests (collectors res.1.2) =
    S (rateLimitedRequests (collectors σ)) ∧
  requestsTotal (collectors res.1.2) = requestsTotal (collectors σ).
Proof.
  intros Hr Hno res. unfold res. rewrite Wrap_rejects by done.
  repeat split.
Qed.

Lemma gate_rejection_response_witness :
  let m := middleware.mkRateLimitMiddleware (rate.mkLimiter 120 5 0 0) in
  let r := request "POST" "/orders" in
  (¬ exempt r ∧ (rate.Allow (middleware.limiter m) (now world0)).1 = false) ∧
  httptest.Code (middleware.RateLimitMiddleware_Wrap m okHandler
                   httptest.NewRecorder r world0).1.1 = 429.
Proof.
  intros m r.
  assert (¬ exempt r) as H1 by (intros [H|H]; discriminate H).
  assert ((rate.Allow (middleware.limiter m) (now world0)).1 = false) as H2
    by reflexivity.
  split; [done|].
  exact (proj1 (gate_rejection_response m okHandler r world0 H1 H2)).
Defined.

(** X19. Wrapped by the metrics middleware, a request that the gate
    rejects is still counted as a request: once under its method, status
    429 and backend label gateway, and once as rate limited. *)
Theorem rejected_request_is_counted (m : middleware.RateLimitMiddleware)
    (next : http.Handler) (r : http.Request) (σ : World) :
  ¬ exempt r →
  (rate.Allow (middleware.limiter m) (now σ)).1 = false →
  let gate : http.Handler :=
    λ W HW w r σ, (middleware.RateLimitMiddleware_Wrap m next w r σ).1 in
  let res := middleware.MetricsMiddleware_Wrap gate
               httptest.ResponseRecorder _ httptest.NewRecorder r σ in
  httptest.Code res.1 = 429 ∧
  requestsTotal (collectors res.2) !! (http.Method r, "429", "gateway") =
    Some (S (default 0%nat
               (requestsTotal (collectors σ)
                  !! (http.Method r, "429", "gateway")))) ∧
  rateLimitedRequests (collectors res.2) =
    S (rateLimitedRequests (collectors σ)).
Proof.
  intros Hr Hno gate res. unfold res, middleware.MetricsMiddleware_Wrap, gate.
  rewrite Wrap_rejects by done. cbn [fst snd].
  assert (http.Path (http.RequestURL r) ≠ "/metrics") as Hp.
  { intros Hp. apply Hr. by right. }
  rewrite (proj2 (String.eqb_neq _ _) Hp). simpl.
  split; [done|]. split; [|done].
  unfold metrics.inc. by rewrite lookup_insert_eq.
Qed.

Lemma rejected_request_is_counted_witness :
  let m := middleware.mkRateLimitMiddleware (rate.mkLimiter 1 1 0 0) in
  let r := request "GET" "/test" in
  let gate : http.Handler :=
    λ W HW w r σ, (middleware.RateLimitMiddleware_Wrap m okHandler w r σ).1 in
  (¬ exempt r ∧ (rate.Allow (middleware.limiter m) (now world0)).1 = false) ∧
  requestsTotal
    (collectors (middleware.MetricsMiddleware_Wrap gate
                   httptest.ResponseRecorder _ httptest.NewRecorder r
                   world0).2) !! ("GET", "429", "gateway") = Some 1%nat.
Proof.
  intros m r gate.
  assert (¬ exempt r) as H1 by (intros [H|H]; discriminate H).
  assert ((rate.Allow (middleware.limiter m) (now world0)).1 = false) as H2
    by reflexivity.
  split; [done|].
  exact (proj1 (proj2 (rejected_request_is_counted m okHandler r world0
                         H1 H2))).
Defined.

(** ** The proxy handler *)

Lemma gateway_eta (gw : gateway.Gateway) :
  gateway.mkGateway (gateway.config gw) (gateway.loadBalancer gw) = gw.
Proof. by destruct gw. Qed.

(** X20. With no healthy backend the proxy handler answers 503 with the
    message Service Unavailable, counts the request under status 503 and
    backend none, logs a warning and an error, leaves the gateway as it
    is and does not forward anything. *)
Theorem proxyHandler_no_backend
    (url_Parse : string → gateway.Target + string)
    (proxy_ServeHTTP : gateway.Target → http.Handler)
    (gw : gateway.Gateway) (r : http.Request) (σ : World) :
  getHealthyBackendsLocked (gateway.loadBalancer gw) = [] →
  ∃ rr σ',
    gateway.proxyHandler url_Parse proxy_ServeHTTP gw
      httptest.NewRecorder r σ = Ok (rr, σ', gw) ∧
    httptest.Code rr = 503 ∧
    httptest.Body rr = "Service Unavailable" +:+ String "010" EmptyString ∧
    requestsTotal (collectors σ') !! (http.Method r, "503", "none") =
      Some (S (default 0%nat
                 (requestsTotal (collectors σ)
                    !! (http.Method r, "503", "none")))) ∧
    backendRequestsTotal (collectors σ') = backendRequestsTotal (collectors σ) ∧
    logged σ' =
      logged σ ++
      [mkLogCall WarnLevel "No healthy backends available" [];
       mkLogCall ErrorLevel "No healthy backends available" []].
Proof.
  intros Hnil. unfold gateway.proxyHandler.
  rewrite NextBackend_no_healthy by done. cbn [mbind Result_bind].
  rewrite gateway_eta. eexists _, _. split; [reflexivity|].
  split; [done|]. split; [done|]. split; [|split; [done|]].
  - simpl. unfold metrics.inc. by rewrite lookup_insert_eq.
  - simpl. by rewrite <-app_assoc.
Qed.

Lemma proxyHandler_no_backend_witness :
  let gw := gateway.mkGateway
              (config.mkConfig [] (config.mkRateLimitConfig 60 10))
              lb3_down in
  getHealthyBackendsLocked (gateway.loadBalancer gw) = [] ∧
  ∃ rr σ',
    gateway.proxyHandler (λ _, inr "unused") (λ _, okHandler) gw
      httptest.NewRecorder (request "GET" "/api") world0 = Ok (rr, σ', gw) ∧
    httptest.Code rr = 503.
Proof.
  intros gw.
  assert (getHealthyBackendsLocked (gateway.loadBalancer gw) = []) as H
    by reflexivity.
  split; [exact H|].
  destruct (proxyHandler_no_backend (λ _, inr "unused") (λ _, okHandler) gw
              (request "GET" "/api") world0 H)
    as (rr & σ' & Hcall & Hcode & _).
  by exists rr, σ'.
Defined.

(** X21. When the selected backend's URL does not parse, the proxy
    handler answers 500, counts the request under status 500 and the
    backend's name, counts no backend request and does not forward
    anything; no other backend is tried. *)
Theorem proxyHandler_invalid_url
    (url_Parse : string → gateway.Target + string)
    (proxy_ServeHTTP : gateway.Target → http.Handler)
    (gw : gateway.Gateway) (r : http.Request) (σ σ1 : World)
    (backend : config.Backend) (lb' : LoadBalancer) (err : string) :
  NextBackend (gateway.loadBalancer gw) σ = Ok (Some backend, lb', σ1) →
  url_Parse (config.URL backend) = inr err →
  ∃ rr σ',
    gateway.proxyHandler url_Parse proxy_ServeHTTP gw
      httptest.NewRecorder r σ =
      Ok (rr, σ', gateway.mkGateway (gateway.config gw) lb') ∧
    httptest.Code rr = 500 ∧
    httptest.Body rr = "Internal Server Error" +:+ String "010" EmptyString ∧
    requestsTotal (collectors σ')
      !! (http.Method r, "500", config.Name backend) =
      Some (S (default 0%nat
                 (requestsTotal (collectors σ)
                    !! (http.Method r, "500", config.Name backend)))) ∧
    backendRequestsTotal (collectors σ') = backendRequestsTotal (collectors σ).
Proof.
  intros Hnext Hparse. unfold gateway.proxyHandler.
  pose proof (NextBackend_some_world _ _ _ _ _ Hnext) as ->.
  rewrite Hnext. cbn [mbind Result_bind]. rewrite Hparse.
  eexists _, _. split; [reflexivity|].
  split; [done|]. split; [done|]. split; [|done].
  simpl. unfold metrics.inc. by rewrite lookup_insert_eq.
Qed.

Lemma proxyHandler_invalid_url_witness :
  let gw := gateway.mkGateway
              (config.mkConfig [] (config.mkRateLimitConfig 60 10)) lb3 in
  let parse : string → gateway.Target + string := λ _, inr "missing scheme" in
  ∃ rr σ',
    gateway.proxyHandler parse (λ _, okHandler) gw
      httptest.NewRecorder (request "GET" "/api") world0 =
      Ok (rr, σ', gateway.mkGateway (gateway.config gw)
                    (set_currentIndex 1 lb3)) ∧
    httptest.Code rr = 500.
Proof.
  intros gw parse.
  assert (NextBackend (gateway.loadBalancer gw) world0 =
          Ok (Some backend1, set_currentIndex 1 lb3, world0)) as H
    by (vm_compute; reflexivity).
  destruct (proxyHandler_invalid_url parse (λ _, okHandler) gw
              (request "GET" "/api") world0 world0 backend1
              (set_currentIndex 1 lb3) "missing scheme" H eq_refl)
    as (rr & σ' & Hcall & Hcode & _).
  by exists rr, σ'.
Defined.

(** X22. When a backend is selected and its URL parses, the client gets
    exactly what the forwarding primitive wrote, and the status the
    interceptor holds is counted twice, once with the request's method
    and the backend's name and once as a backend request. *)
Theorem proxyHandler_forwards
    (url_Parse : string → gateway.Target + string)
    (proxy_ServeHTTP : gateway.Target → http.Handler)
    (gw : gateway.Gateway) (r : http.Request) (σ σ1 : World)
    (backend : config.Backend) (lb' : LoadBalancer)
    (target : gateway.Target) :
  NextBackend (gateway.loadBalancer gw) σ = Ok (Some backend, lb', σ1) →
  url_Parse (config.URL backend) = inl target →
  let r' := http.mkRequest (http.Method r) (http.RequestURL r)
              (<["X-Forwarded-Host" := middleware.Header_Get r "Host"]>
                 (http.Header r))
              (http.RemoteAddr r) in
  let inner := proxy_ServeHTTP target
                 (metrics.ResponseWriter httptest.ResponseRecorder)
                 metrics.wrapper_ResponseWriter
                 (metrics.NewResponseWriter httptest.NewRecorder) r' σ in
  let status := metrics.StatusCode inner.1 in
  ∃ σ',
    gateway.proxyHandler url_Parse proxy_ServeHTTP gw
      httptest.NewRecorder r σ =
      Ok (metrics.embedded inner.1, σ',
          gateway.mkGateway (gateway.config gw) lb') ∧
    requestsTotal (collectors σ')
      !! (http.Method r, status, config.Name backend) =
      Some (S (default 0%nat
                 (requestsTotal (collectors inner.2)
                    !! (http.Method r, status, config.Name backend)))) ∧
    backendRequestsTotal (collectors σ') !! (config.Name backend, status) =
      Some (S (default 0%nat
                 (backendRequestsTotal (collectors inner.2)
                    !! (config.Name backend, status)))).
Proof.
  intros Hnext Hparse r' inner status. unfold gateway.proxyHandler.
  pose proof (NextBackend_some_world _ _ _ _ _ Hnext) as ->.
  rewrite Hnext. cbn [mbind Result_bind]. rewrite Hparse.
  fold r'. fold inner. destruct inner as [rw σp] eqn:E.
  eexists. split; [reflexivity|]. simpl in status. subst status. simpl.
  unfold metrics.inc. by rewrite !lookup_insert_eq.
Qed.

Lemma proxyHandler_forwards_witness :
  let gw := gateway.mkGateway
              (config.mkConfig [] (config.mkRateLimitConfig 60 10)) lb3 in
  let parse : string → gateway.Target + string :=
    λ _, inl (gateway.mkTarget "localhost:3001" "http") in
  ∃ σ',
    gateway.proxyHandler parse (λ _, okHandler) gw
      httptest.NewRecorder (request "GET" "/api") world0 =
      Ok (httptest.mkResponseRecorder 200 ∅ "OK" true, σ',
          gateway.mkGateway (gateway.config gw) (set_currentIndex 1 lb3)) ∧
    requestsTotal (collectors σ') !! ("GET", "200", "backend1") = Some 1%nat ∧
    backendRequestsTotal (collectors σ') !! ("backend1", "200") = Some 1%nat.
Proof.
  intros gw parse.
  assert (NextBackend (gateway.loadBalancer gw) world0 =
          Ok (Some backend1, set_currentIndex 1 lb3, world0)) as H
    by (vm_compute; reflexivity).
  destruct (proxyHandler_forwards parse (λ _, okHandler) gw
              (request "GET" "/api") world0 world0 backend1
              (set_currentIndex 1 lb3)
              (gateway.mkTarget "localhost:3001" "http") H eq_refl)
    as (σ' & Hcall & Hreq & Hback).
  exists σ'. split; [exact Hcall|]. split; [exact Hreq|exact Hback].
Defined.

(** ** Health checks *)

Section Checks.

Implicit Types (lb : LoadBalancer) (bs : list BackendStatus) (σ : World).


End Checks.


